(** * AtlasCare ledger codec and status reconciliation: a Rocq model

    A shallow embedding of the JavaScript sources
    - [utils/hashUtils.js]            (truncateHash, removeHashPrefix, hashAndStore),
    - [utils/geotagMapper.js]         (haversineDistance, coordsToCity, compressGeotag),
    - [utils/hcsPayloadCompressor.js] (the four variant compressors,
                                       compressPayload, decompressPayload),
    - [services/statusReconciliation.js] (pending confirmations, dispense locks),
    together with the statements about them that the specification makes.

    JavaScript values are an inductive type, numbers are IEEE-754 doubles
    (Rocq's primitive floats), [Map]s are finite maps, thrown exceptions are
    the [Throw] outcome of a result monad, and the parts of the language
    runtime that the code calls but does not define (the clock, date
    parsing and printing, number parsing and printing, trigonometry) are the
    fields of the [Runtime] class. *)

From Stdlib Require Import ZArith String Ascii List Bool Lia Floats.
From stdpp Require Import base option list gmap strings.
Import ListNotations.

#[local] Set Warnings "-register-all,-inexact-float".

Local Open Scope string_scope.
Local Open Scope Z_scope.

(** ** Outcomes: a value or a thrown exception *)

Inductive exn : Type := TypeError | RangeError.

Inductive result (A : Type) : Type :=
| Ok (a : A)
| Throw (e : exn).
Arguments Ok {A} a.
Arguments Throw {A} e.

#[global] Instance result_ret : MRet result := fun _ a => Ok a.
#[global] Instance result_bind : MBind result := fun _ _ f m =>
  match m with
  | Ok a => f a
  | Throw e => Throw e
  end.

Definition returns {A : Type} (m : result A) : Prop := exists a, m = Ok a.

(** ** JavaScript values

    [VObj] lists the own properties of a plain object in property order;
    [VNative n] is the built-in function found under the name [n] on
    [Object.prototype].  Property order is insertion order: the model does
    not move integer-like keys to the front as an engine would. *)

Inductive value : Type :=
| VUndef
| VNull
| VBool (b : bool)
| VNum (x : float)
| VStr (s : string)
| VArr (xs : list value)
| VObj (fs : list (string * value))
| VNative (n : string).

Definition is_nan (x : float) : bool := negb (PrimFloat.eqb x x).

(** ToBoolean *)
Definition truthy (v : value) : bool :=
  match v with
  | VUndef | VNull => false
  | VBool b => b
  | VNum x => negb (PrimFloat.eqb x 0 || is_nan x)
  | VStr s => negb (String.eqb s "")
  | VArr _ | VObj _ | VNative _ => true
  end.

(** [a || b] *)
Definition js_or (a b : value) : value := if truthy a then a else b.

Definition typeof (v : value) : string :=
  match v with
  | VUndef => "undefined"
  | VNull | VArr _ | VObj _ => "object"
  | VBool _ => "boolean"
  | VNum _ => "number"
  | VStr _ => "string"
  | VNative _ => "function"
  end.

(** [v === 'lit'] for a string literal *)
Definition is_str (v : value) (lit : string) : bool :=
  match v with
  | VStr s => String.eqb s lit
  | _ => false
  end.

(** Own properties *)
Fixpoint assoc {A : Type} (k : string) (fs : list (string * A)) : option A :=
  match fs with
  | [] => None
  | (k', v) :: fs' => if String.eqb k k' then Some v else assoc k fs'
  end.

(** [obj[k] = v]: overwrite in place, or append a new property *)
Fixpoint obj_set (k : string) (v : value) (fs : list (string * value))
  : list (string * value) :=
  match fs with
  | [] => [(k, v)]
  | (k', v') :: fs' =>
      if String.eqb k k' then (k, v) :: fs' else (k', v') :: obj_set k v fs'
  end.

(** Members every plain object inherits from [Object.prototype]. *)
Definition Object_prototype_functions : list string :=
  [ "constructor"; "hasOwnProperty"; "isPrototypeOf"; "propertyIsEnumerable";
    "toLocaleString"; "toString"; "valueOf"; "__defineGetter__";
    "__defineSetter__"; "__lookupGetter__"; "__lookupSetter__" ].

Definition Object_prototype (k : string) : value :=
  if String.eqb k "__proto__" then VObj []
  else if existsb (String.eqb k) Object_prototype_functions then VNative k
  else VUndef.

(** [obj[k]] on a plain object: own property, else the prototype's. *)
Definition obj_get (fs : list (string * value)) (k : string) : value :=
  match assoc k fs with
  | Some v => v
  | None => Object_prototype k
  end.

(** [v.k] for the fixed member names the sources read ([eventType], [e],
    [lat], [h], ...): none of them is defined on a built-in prototype, so a
    primitive, an array or a function answers [undefined]. *)
Definition get_prop (v : value) (k : string) : result value :=
  match v with
  | VUndef | VNull => Throw TypeError
  | VObj fs => Ok (obj_get fs k)
  | _ => Ok VUndef
  end.

(** ** Strings *)

Fixpoint startsWith (p s : string) : bool :=
  match p, s with
  | EmptyString, _ => true
  | String a p', String b s' => Ascii.eqb a b && startsWith p' s'
  | String _ _, EmptyString => false
  end.

Fixpoint drop_chars (n : nat) (s : string) : string :=
  match n, s with
  | O, _ => s
  | S n', String _ s' => drop_chars n' s'
  | S _, EmptyString => EmptyString
  end.

Fixpoint take_chars (n : nat) (s : string) : string :=
  match n, s with
  | O, _ => EmptyString
  | S n', String a s' => String a (take_chars n' s')
  | S _, EmptyString => EmptyString
  end.

(** [s.slice(0, len)] *)
Definition slice0 (len : Z) (s : string) : string :=
  if len <? 0
  then take_chars (Z.to_nat (Z.of_nat (String.length s) + len)) s
  else take_chars (Z.to_nat len) s.

(** [s.replace(/^(sha256:|hex:)/, '')] *)
Definition strip_hash_prefix (s : string) : string :=
  if startsWith "sha256:" s then drop_chars 7 s
  else if startsWith "hex:" s then drop_chars 4 s
  else s.

Definition is_hex_char (a : ascii) : bool :=
  let n := N_of_ascii a in
  ((48 <=? n) && (n <=? 57) || (97 <=? n) && (n <=? 102)
   || (65 <=? n) && (n <=? 70))%N.

Fixpoint all_chars (p : ascii -> bool) (s : string) : bool :=
  match s with
  | EmptyString => true
  | String a s' => p a && all_chars p s'
  end.

(** [/^[0-9a-fA-F]+$/.test(s)] *)
Definition is_hex (s : string) : bool :=
  negb (String.eqb s "") && all_chars is_hex_char s.

Definition lower_char (a : ascii) : ascii :=
  let n := N_of_ascii a in
  if ((65 <=? n) && (n <=? 90))%N then ascii_of_N (n + 32) else a.

Fixpoint map_chars (f : ascii -> ascii) (s : string) : string :=
  match s with
  | EmptyString => EmptyString
  | String a s' => String (f a) (map_chars f s')
  end.

(** [s.toLowerCase()], on the ASCII letters *)
Definition toLowerCase (s : string) : string := map_chars lower_char s.

Fixpoint includes_char (c : ascii) (s : string) : bool :=
  match s with
  | EmptyString => false
  | String a s' => Ascii.eqb a c || includes_char c s'
  end.

(** [s.split(c)] for a one-character separator *)
Fixpoint split_char (c : ascii) (s : string) : list string :=
  match s with
  | EmptyString => [EmptyString]
  | String a s' =>
      if Ascii.eqb a c then EmptyString :: split_char c s'
      else match split_char c s' with
           | [] => [String a EmptyString]
           | w :: ws => String a w :: ws
           end
  end.

Fixpoint join_with (sep : string) (ws : list string) : string :=
  match ws with
  | [] => ""
  | [w] => w
  | w :: ws' => w +:+ sep +:+ join_with sep ws'
  end.

(** Decimal numerals, for array indices and integral numbers *)
Definition digit_char (d : Z) : ascii := ascii_of_N (Z.to_N (48 + d)).

Fixpoint decimal_digits (fuel : nat) (z : Z) (acc : string) : string :=
  match fuel with
  | O => acc
  | S fuel' =>
      let acc' := String (digit_char (z mod 10)) acc in
      if z / 10 =? 0 then acc' else decimal_digits fuel' (z / 10) acc'
  end.

Definition Z_to_string (z : Z) : string :=
  if z <? 0 then String "-" (decimal_digits 400 (- z) "")
  else decimal_digits 400 z "".

(** ** Numbers

    Conversions between doubles and integers, exact on the integers below
    [2^53], and the two rounding functions of [Math] that the codec uses. *)

Definition Z2float (z : Z) : float :=
  let a := PrimFloat.of_uint63 (Uint63.of_Z (Z.abs z)) in
  if z <? 0 then PrimFloat.opp a else a.

(** the integer [(-1)^s * m * 2^e], rounded towards minus infinity *)
Definition floor_Z (s : bool) (m : positive) (e : Z) : Z :=
  let n := if s then Z.neg m else Z.pos m in
  if 0 <=? e then n * 2 ^ e else n / 2 ^ (- e).

(** the same number with its fraction dropped *)
Definition trunc_Z (s : bool) (m : positive) (e : Z) : Z :=
  let n := if s then Z.neg m else Z.pos m in
  if 0 <=? e then n * 2 ^ e else Z.quot n (2 ^ (- e)).

(** [Math.floor] *)
Definition Math_floor (x : float) : float :=
  match Prim2SF x with
  | S754_finite s m e => if 0 <=? e then x else Z2float (floor_Z s m e)
  | _ => x
  end.

(** [Math.round]: to the nearest integer, ties towards plus infinity, and
    minus zero for the negative numbers that round to zero *)
Definition Math_round (x : float) : float :=
  match Prim2SF x with
  | S754_finite s m e =>
      if 0 <=? e then x
      else
        let n := if s then Z.neg m else Z.pos m in
        let r := (2 * n + 2 ^ (- e)) / 2 ^ (- e + 1) in
        if (r =? 0) && s then (-0)%float else Z2float r
  | _ => x
  end.

(** TimeClip: the time value of a number, if it is a valid one *)
Definition max_time : Z := 8640000000000000.

Definition clip_Z (t : Z) : option Z :=
  if Z.abs t <=? max_time then Some t else None.

Definition TimeClip (x : float) : option Z :=
  match Prim2SF x with
  | S754_zero _ => Some 0
  | S754_finite s m e => clip_Z (trunc_Z s m e)
  | _ => None
  end.

(** ** The language runtime

    What the sources call and the language or Node provide.  [Date_now] is
    the reading of the clock during one call of the codec; [Date_parse]
    answers [None] where [Date.parse] answers [NaN]; [Function_toString]
    is the source text an engine prints for a built-in function. *)

Class Runtime : Type := {
  Date_now : Z;
  Date_parse : string -> option Z;
  Date_toISOString : Z -> string;
  Number_toString : float -> string;
  StringToNumber : string -> float;
  parseFloat : string -> float;
  Math_sin : float -> float;
  Math_cos : float -> float;
  Math_atan2 : float -> float -> float;
  Function_toString : string -> string
}.

Section Coercions.
Context `{Runtime}.

(** ToString.  A plain object converts through the inherited
    [toString]; an own property of that name hides it, is not callable
    in data, and the conversion throws. *)
Fixpoint ToString (v : value) : result string :=
  match v with
  | VUndef => Ok "undefined"
  | VNull => Ok "null"
  | VBool b => Ok (if b then "true" else "false")
  | VNum x => Ok (Number_toString x)
  | VStr s => Ok s
  | VArr xs =>
      ws ← (fix elements (l : list value) : result (list string) :=
              match l with
              | [] => Ok []
              | x :: l' =>
                  w ← match x with
                      | VUndef | VNull => Ok ""
                      | _ => ToString x
                      end;
                  ws ← elements l';
                  Ok (w :: ws)
              end) xs;
      Ok (join_with "," ws)
  | VObj fs =>
      match assoc "toString" fs with
      | Some _ => Throw TypeError
      | None => Ok "[object Object]"
      end
  | VNative n => Ok (Function_toString n)
  end.

(** ToNumber *)
Definition ToNumber (v : value) : result float :=
  match v with
  | VUndef => Ok nan
  | VNull => Ok 0%float
  | VBool b => Ok (if b then 1%float else 0%float)
  | VNum x => Ok x
  | VStr s => Ok (StringToNumber s)
  | VArr _ | VObj _ | VNative _ => s ← ToString v; Ok (StringToNumber s)
  end.

(** [table[key]] on a constant table written as an object literal *)
Definition index (table : list (string * value)) (key : value) : result value :=
  k ← ToString key; Ok (obj_get table k).

(** [new Date(v).getTime()], [None] for an invalid date *)
Definition Date_getTime (v : value) : result (option Z) :=
  match v with
  | VStr s => Ok (t ← Date_parse s; clip_Z t)
  | VArr _ | VObj _ | VNative _ =>
      s ← ToString v; Ok (t ← Date_parse s; clip_Z t)
  | _ => x ← ToNumber v; Ok (TimeClip x)
  end.

(** [Object.entries(v)] *)
Fixpoint indexed {A : Type} (i : Z) (l : list A) : list (string * A) :=
  match l with
  | [] => []
  | x :: l' => (Z_to_string i, x) :: indexed (i + 1) l'
  end.

Fixpoint chars (s : string) : list value :=
  match s with
  | EmptyString => []
  | String a s' => VStr (String a EmptyString) :: chars s'
  end.

Definition Object_entries (v : value) : result (list (string * value)) :=
  match v with
  | VUndef | VNull => Throw TypeError
  | VObj fs => Ok fs
  | VArr xs => Ok (indexed 0 xs)
  | VStr s => Ok (indexed 0 (chars s))
  | _ => Ok []
  end.
End Coercions.

(** ** SHA-256 (FIPS 180-4)

    [crypto.createHash('sha256').update(data).digest('hex')]: the digest of
    the bytes of [data], printed as 64 lowercase hexadecimal digits.  Words
    are integers below [2^32]. *)

Module Sha256.

Definition mask32 : Z := 4294967295.

Definition add32 (x y : Z) : Z := (x + y) mod 4294967296.

Definition rotr (n x : Z) : Z :=
  Z.lor (Z.shiftr x n) (Z.land (Z.shiftl x (32 - n)) mask32).

Definition Ch (x y z : Z) : Z :=
  Z.lxor (Z.land x y) (Z.land (Z.lxor x mask32) z).

Definition Maj (x y z : Z) : Z :=
  Z.lxor (Z.lxor (Z.land x y) (Z.land x z)) (Z.land y z).

Definition Sigma0 (x : Z) : Z := Z.lxor (Z.lxor (rotr 2 x) (rotr 13 x)) (rotr 22 x).
Definition Sigma1 (x : Z) : Z := Z.lxor (Z.lxor (rotr 6 x) (rotr 11 x)) (rotr 25 x).
Definition sigma0 (x : Z) : Z := Z.lxor (Z.lxor (rotr 7 x) (rotr 18 x)) (Z.shiftr x 3).
Definition sigma1 (x : Z) : Z := Z.lxor (Z.lxor (rotr 17 x) (rotr 19 x)) (Z.shiftr x 10).

(** the first [n] primes *)
Definition is_prime (p : Z) : bool :=
  forallb (fun d => negb (p mod d =? 0) || (p <=? d))
          (map Z.of_nat (seq 2 (Z.to_nat (Z.sqrt p)))).

Definition primes (n : nat) : list Z :=
  firstn n (filter is_prime (map Z.of_nat (seq 2 400))).

(** the integer cube root, one bit at a time *)
Fixpoint cube_root_bits (fuel : nat) (bit r n : Z) : Z :=
  match fuel with
  | O => r
  | S fuel' =>
      let r' := r + bit in
      cube_root_bits fuel' (bit / 2) (if r' * r' * r' <=? n then r' else r) n
  end.

Definition cube_root (n : Z) : Z := cube_root_bits 48 (2 ^ 47) 0 n.

(** the first 32 bits of the fraction of the cube root of a prime *)
Definition cube_root_fraction (p : Z) : Z := cube_root (p * 2 ^ 96) mod 2 ^ 32.

(** the first 32 bits of the fraction of the square root of a prime *)
Definition square_root_fraction (p : Z) : Z := Z.sqrt (p * 2 ^ 64) mod 2 ^ 32.

(** the round constants: from the first 64 primes *)
Definition K : list Z := Eval vm_compute in map cube_root_fraction (primes 64).

Record state : Type := State {
  ha : Z; hb : Z; hc : Z; hd : Z; he : Z; hf : Z; hg : Z; hh : Z
}.

(** the initial hash value: from the first 8 primes *)
Definition H0 : state :=
  Eval vm_compute in
    match map square_root_fraction (primes 8) with
    | [a; b; c; d; e; f; g; h] => State a b c d e f g h
    | _ => State 0 0 0 0 0 0 0 0
    end.

Fixpoint bytes_of (s : string) : list Z :=
  match s with
  | EmptyString => []
  | String a s' => Z.of_N (N_of_ascii a) :: bytes_of s'
  end.

(** the eight bytes of a 64-bit length, most significant first *)
Definition length_bytes (bits : Z) : list Z :=
  map (fun i => Z.land (Z.shiftr bits (8 * i)) 255) [7; 6; 5; 4; 3; 2; 1; 0].

Definition pad (msg : list Z) : list Z :=
  let n := Z.of_nat (length msg) in
  let zeros := Z.to_nat ((55 - n) mod 64) in
  msg ++ [128] ++ repeat 0 zeros ++ length_bytes (8 * n).

Fixpoint words (fuel : nat) (bs : list Z) : list Z :=
  match fuel, bs with
  | S fuel', b0 :: b1 :: b2 :: b3 :: bs' =>
      (b0 * 16777216 + b1 * 65536 + b2 * 256 + b3) :: words fuel' bs'
  | _, _ => []
  end.

Fixpoint blocks (fuel : nat) (ws : list Z) : list (list Z) :=
  match fuel, ws with
  | S fuel', _ :: _ => firstn 16 ws :: blocks fuel' (skipn 16 ws)
  | _, _ => []
  end.

(** the message schedule, latest word first *)
Fixpoint extend (n : nat) (rev_ws : list Z) : list Z :=
  match n with
  | O => rev_ws
  | S n' =>
      let w := add32 (add32 (sigma1 (nth 1 rev_ws 0)) (nth 6 rev_ws 0))
                     (add32 (sigma0 (nth 14 rev_ws 0)) (nth 15 rev_ws 0)) in
      extend n' (w :: rev_ws)
  end.

Definition schedule (block : list Z) : list Z := rev (extend 48 (rev block)).

Definition round (st : state) (kw : Z * Z) : state :=
  let '(k, w) := kw in
  let t1 := add32 (add32 (add32 (hh st) (Sigma1 (he st)))
                         (add32 (Ch (he st) (hf st) (hg st)) k)) w in
  let t2 := add32 (Sigma0 (ha st)) (Maj (ha st) (hb st) (hc st)) in
  State (add32 t1 t2) (ha st) (hb st) (hc st)
        (add32 (hd st) t1) (he st) (hf st) (hg st).

Definition compress (st : state) (block : list Z) : state :=
  let r := fold_left round (combine K (schedule block)) st in
  State (add32 (ha st) (ha r)) (add32 (hb st) (hb r))
        (add32 (hc st) (hc r)) (add32 (hd st) (hd r))
        (add32 (he st) (he r)) (add32 (hf st) (hf r))
        (add32 (hg st) (hg r)) (add32 (hh st) (hh r)).

Definition hexdigit (n : nat) : ascii :=
  match n with
  | 0 => "0" | 1 => "1" | 2 => "2" | 3 => "3" | 4 => "4" | 5 => "5"
  | 6 => "6" | 7 => "7" | 8 => "8" | 9 => "9" | 10 => "a" | 11 => "b"
  | 12 => "c" | 13 => "d" | 14 => "e" | _ => "f"
  end%nat%char.

Definition nibble (w i : Z) : ascii :=
  hexdigit (Z.to_nat (Z.land (Z.shiftr w (4 * i)) 15)).

Definition hex32 (w : Z) (rest : string) : string :=
  String (nibble w 7) (String (nibble w 6) (String (nibble w 5)
  (String (nibble w 4) (String (nibble w 3) (String (nibble w 2)
  (String (nibble w 1) (String (nibble w 0) rest))))))).

Definition hexdigest (st : state) : string :=
  hex32 (ha st) (hex32 (hb st) (hex32 (hc st) (hex32 (hd st)
  (hex32 (he st) (hex32 (hf st) (hex32 (hg st) (hex32 (hh st) ""))))))).

Definition digest (data : string) : string :=
  let bs := pad (bytes_of data) in
  let ws := words (length bs) bs in
  hexdigest (fold_left compress (blocks (length ws) ws) H0).

End Sha256.

(** ** Method calls on values

    A string method called on a value that is not a string: the member is
    missing (or, on an object, is data), and calling it throws. *)

(** [v.replace(/^(sha256:|hex:)/, '')] *)
Definition call_replace_prefix (v : value) : result string :=
  match v with
  | VStr s => Ok (strip_hash_prefix s)
  | _ => Throw TypeError
  end.

(** [v.startsWith(p)] *)
Definition call_startsWith (v : value) (p : string) : result bool :=
  match v with
  | VStr s => Ok (startsWith p s)
  | _ => Throw TypeError
  end.

(** [v.slice(0, 6)]: strings and arrays both have it *)
Definition call_slice6 (v : value) : result value :=
  match v with
  | VStr s => Ok (VStr (slice0 6 s))
  | VArr xs => Ok (VArr (firstn 6 xs))
  | _ => Throw TypeError
  end.

(** ** utils/hashUtils.js *)

Definition truncateHash (fullHash : value) (length : Z) : result string :=
  if negb (truthy fullHash) then Ok ""
  else
    cleaned ← call_replace_prefix fullHash;
    if negb (is_hex cleaned)
    then Ok (slice0 length cleaned)
    else Ok (toLowerCase (slice0 length cleaned)).

Definition removeHashPrefix (hash : value) : result string :=
  if negb (truthy hash) then Ok "" else call_replace_prefix hash.

Record hashed : Type := Hashed { full : string; truncated : string }.

(** [lookupMap] is the caller's [Map], or [None] when none is passed; the
    updated table is returned next to the result. *)
Definition hashAndStore (data : string) (lookupMap : option (gmap string string))
    (truncateLength : Z) : result (hashed * option (gmap string string)) :=
  let full := Sha256.digest data in
  truncated ← truncateHash (VStr full) truncateLength;
  match lookupMap with
  | Some m =>
      let existing := m !! truncated in
      let collision :=
        match existing with
        | Some e => negb (String.eqb e "") && negb (String.eqb e full)
        | None => false
        end in
      if collision then
        longerTruncated ← truncateHash (VStr full) (truncateLength + 4);
        Ok (Hashed full longerTruncated, Some (<[longerTruncated := full]> m))
      else
        Ok (Hashed full truncated, Some (<[truncated := full]> m))
  | None => Ok (Hashed full truncated, None)
  end.

(** ** utils/geotagMapper.js *)

Record city : Type := City {
  code : string; name : string; lat : float; lng : float; radius : float
}.

Definition MOROCCAN_CITIES : list city :=
  [ City "MA-CAS" "Casablanca" 33.5731 (-7.5898) 30;
    City "MA-RAB" "Rabat" 34.0209 (-6.8416) 25;
    City "MA-FES" "Fes" 34.0181 (-5.0078) 20;
    City "MA-MAR" "Marrakech" 31.6295 (-7.9811) 25;
    City "MA-TAN" "Tangier" 35.7595 (-5.8340) 20;
    City "MA-SAL" "Sale" 34.0531 (-6.7985) 15;
    City "MA-MKN" "Meknes" 33.8935 (-5.5473) 15;
    City "MA-OUJ" "Oujda" 34.6867 (-1.9114) 15;
    City "MA-KEN" "Kenitra" 34.2610 (-6.5802) 15;
    City "MA-TET" "Tetouan" 35.5889 (-5.3626) 15;
    City "MA-SAF" "Safi" 32.3008 (-9.2272) 15;
    City "MA-AGD" "Agadir" 30.4278 (-9.5981) 20;
    City "MA-BEN" "Beni Mellal" 32.3394 (-6.3498) 15;
    City "MA-NAD" "Nador" 35.1681 (-2.9333) 15;
    City "MA-TAZ" "Taza" 34.2133 (-4.0103) 15;
    City "MA-KHO" "Khouribga" 32.8811 (-6.9063) 15;
    City "MA-LAA" "Laayoune" 27.1536 (-13.1994) 20 ]%float.

(** [city.lat] and [city.lng], as values *)
Definition center (c : city) : value * value := (VNum (lat c), VNum (lng c)).

Definition FALLBACK_CODE : string := "MA-UNK".

Definition Math_PI : float := 3.141592653589793%float.

Definition toRadians (degrees : float) : float :=
  (degrees * (Math_PI / 180))%float.

Section GeotagMapper.
Context `{Runtime}.

(** The arguments are used in arithmetic only, which converts each of them
    with ToNumber. *)
Definition haversineDistance (lat1 lng1 lat2 lng2 : value) : result float :=
  lat1 ← ToNumber lat1;
  lng1 ← ToNumber lng1;
  lat2 ← ToNumber lat2;
  lng2 ← ToNumber lng2;
  let R := 6371%float in
  let dLat := toRadians (lat2 - lat1) in
  let dLng := toRadians (lng2 - lng1) in
  let a := (Math_sin (dLat / 2) * Math_sin (dLat / 2) +
            Math_cos (toRadians lat1) * Math_cos (toRadians lat2) *
            Math_sin (dLng / 2) * Math_sin (dLng / 2))%float in
  let c := (2 * Math_atan2 (PrimFloat.sqrt a) (PrimFloat.sqrt (1 - a)))%float in
  Ok (R * c)%float.

(** the [for] loop of [coordsToCity] and what follows it *)
Fixpoint nearest (lat lng : value) (cities : list city)
    (nearestCity : option city) (minDistance : float) : result string :=
  match cities with
  | [] =>
      match nearestCity with
      | Some c => if PrimFloat.leb minDistance 100 then Ok (code c)
                  else Ok FALLBACK_CODE
      | None => Ok FALLBACK_CODE
      end
  | c :: cities' =>
      distance ← haversineDistance lat lng (center c).1 (center c).2;
      if PrimFloat.leb distance (radius c) then Ok (code c)
      else if PrimFloat.ltb distance minDistance
           then nearest lat lng cities' (Some c) distance
           else nearest lat lng cities' nearestCity minDistance
  end.

Definition coordsToCity (lat lng : value) : result string :=
  if negb (truthy lat) || negb (truthy lng) then Ok FALLBACK_CODE
  else nearest lat lng MOROCCAN_CITIES None infinity.

Definition compressGeotag (geotag : value) : result value :=
  if negb (truthy geotag) then Ok (VStr FALLBACK_CODE)
  else
    isCode ← (if String.eqb (typeof geotag) "string"
              then call_startsWith geotag "MA-" else Ok false);
    if isCode : bool then Ok geotag
    else
      lat ← get_prop geotag "lat";
      lng ← get_prop geotag "lng";
      if String.eqb (typeof geotag) "object" && truthy lat && truthy lng
      then c ← coordsToCity lat lng; Ok (VStr c)
      else
        match geotag with
        | VStr s =>
            if includes_char "," s then
              let parts := map (fun p => VNum (parseFloat p)) (split_char "," s) in
              c ← coordsToCity (nth 0 parts VUndef) (nth 1 parts VUndef);
              Ok (VStr c)
            else Ok (VStr FALLBACK_CODE)
        | _ => Ok (VStr FALLBACK_CODE)
        end.

End GeotagMapper.

(** ** utils/hcsPayloadCompressor.js *)

Definition FIELD_MAP : list (string * string) :=
  [ ("eventType", "e"); ("topicID", "t"); ("timestamp", "ts"); ("nonce", "n");
    ("signature", "s");
    ("validUntil", "u"); ("geoTag", "g"); ("hashedPatientId", "h");
    ("maxDispenses", "md"); ("dispenseCount", "dc");
    ("actorIdHash", "a"); ("amountMAD", "amt"); ("method", "m");
    ("prevEventHash", "p") ].

Definition REVERSE_FIELD_MAP : list (string * value) :=
  map (fun '(k, v) => (v, VStr k)) FIELD_MAP.

Definition PAYMENT_METHODS : list (string * value) :=
  [ ("cash", VNum 1); ("card", VNum 2); ("hbar", VNum 3);
    ("1", VStr "cash"); ("2", VStr "card"); ("3", VStr "hbar") ].

Definition EVENT_TYPES : list (string * value) :=
  [ ("issued", VStr "i"); ("verified", VStr "v"); ("paid", VStr "p");
    ("dispensed", VStr "d"); ("cancelled", VStr "c");
    ("i", VStr "issued"); ("v", VStr "verified"); ("p", VStr "paid");
    ("d", VStr "dispensed"); ("c", VStr "cancelled") ].

(** [hashLookup.has(k)] and [hashLookup.get(k)] on a table keyed by strings *)
Definition Map_has (m : gmap string string) (k : value) : bool :=
  match k with
  | VStr s => bool_decide (is_Some (m !! s))
  | _ => false
  end.

Definition Map_get (m : gmap string string) (k : value) : value :=
  match k with
  | VStr s => match m !! s with Some v => VStr v | None => VUndef end
  | _ => VUndef
  end.

Fixpoint foldM {A B : Type} (f : A -> B -> result A) (l : list B) (a : A)
  : result A :=
  match l with
  | [] => Ok a
  | b :: l' => a' ← f a b; foldM f l' a'
  end.

Section Codec.
Context `{Runtime}.

Definition compressTimestamp (isoTimestamp : value) : result value :=
  if negb (truthy isoTimestamp)
  then Ok (VNum (Math_floor (Z2float Date_now / 1000)))
  else
    t ← Date_getTime isoTimestamp;
    let ms := match t with Some z => Z2float z | None => nan end in
    Ok (VNum (Math_floor (ms / 1000))).

Definition decompressTimestamp (epoch : value) : result value :=
  if negb (truthy epoch) then Ok (VStr (Date_toISOString Date_now))
  else
    x ← ToNumber epoch;
    match TimeClip (x * 1000) with
    | Some t => Ok (VStr (Date_toISOString t))
    | None => Throw RangeError
    end.

(** [fullPayload.nonce ? fullPayload.nonce.slice(0, 6) : ''] *)
Definition compressNonce (nonce : value) : result value :=
  if truthy nonce then call_slice6 nonce else Ok (VStr "").

(** [if (fullPayload.signature) compressed.s = removeHashPrefix(...)] *)
Definition addSignature (signature : value) (compressed : list (string * value))
  : result (list (string * value)) :=
  if truthy signature
  then s ← removeHashPrefix signature; Ok (obj_set "s" (VStr s) compressed)
  else Ok compressed.

(** [if (fullPayload.x) hashLookup.set(key, removeHashPrefix(fullPayload.x))] *)
Definition storeHash (x : value) (key : string) (m : gmap string string)
  : result (gmap string string) :=
  if truthy x
  then fullHash ← removeHashPrefix x; Ok (<[key := fullHash]> m)
  else Ok m.

(** the [if (hashLookup) { actorIdHash ...; prevEventHash ... }] block
    shared by the PAID, DISPENSED and VERIFIED compressors *)
Definition storeActorAndPrev (actorIdHash prevEventHash : value) (a p : string)
    (hashLookup : option (gmap string string))
  : result (option (gmap string string)) :=
  match hashLookup with
  | Some m =>
      m ← storeHash actorIdHash a m;
      m ← storeHash prevEventHash p m;
      Ok (Some m)
  | None => Ok None
  end.

Definition compressIssuedMessage (fullPayload : value)
    (hashLookup : option (gmap string string))
  : result (value * option (gmap string string)) :=
  eventType ← get_prop fullPayload "eventType";
  e ← index EVENT_TYPES eventType;
  topicID ← get_prop fullPayload "topicID";
  timestamp ← get_prop fullPayload "timestamp";
  ts ← compressTimestamp timestamp;
  validUntil ← get_prop fullPayload "validUntil";
  u ← compressTimestamp validUntil;
  geoTag ← get_prop fullPayload "geoTag";
  g ← compressGeotag geoTag;
  hashedPatientId ← get_prop fullPayload "hashedPatientId";
  h ← truncateHash hashedPatientId 8;
  maxDispenses ← get_prop fullPayload "maxDispenses";
  dispenseCount ← get_prop fullPayload "dispenseCount";
  nonce ← get_prop fullPayload "nonce";
  n ← compressNonce nonce;
  let compressed :=
    [ ("e", js_or e (VStr "i")); ("t", topicID); ("ts", ts); ("u", u);
      ("g", g); ("h", VStr h); ("md", js_or maxDispenses (VNum 1));
      ("dc", js_or dispenseCount (VNum 0)); ("n", n) ] in
  signature ← get_prop fullPayload "signature";
  compressed ← addSignature signature compressed;
  hashLookup ← match hashLookup with
                | Some m => m ← storeHash hashedPatientId h m; Ok (Some m)
                | None => Ok None
                end;
  Ok (VObj compressed, hashLookup).

Definition compressPaidMessage (fullPayload : value)
    (hashLookup : option (gmap string string))
  : result (value * option (gmap string string)) :=
  eventType ← get_prop fullPayload "eventType";
  e ← index EVENT_TYPES eventType;
  topicID ← get_prop fullPayload "topicID";
  timestamp ← get_prop fullPayload "timestamp";
  ts ← compressTimestamp timestamp;
  actorIdHash ← get_prop fullPayload "actorIdHash";
  a ← truncateHash actorIdHash 8;
  prevEventHash ← get_prop fullPayload "prevEventHash";
  p ← truncateHash prevEventHash 8;
  nonce ← get_prop fullPayload "nonce";
  n ← compressNonce nonce;
  let compressed :=
    [ ("e", js_or e (VStr "p")); ("t", topicID); ("ts", ts);
      ("a", VStr a); ("p", VStr p); ("n", n) ] in
  amountMAD ← get_prop fullPayload "amountMAD";
  compressed ← match amountMAD with
                | VUndef => Ok compressed
                | _ => x ← ToNumber amountMAD;
                       Ok (obj_set "amt" (VNum (Math_round x)) compressed)
                end;
  method ← get_prop fullPayload "method";
  compressed ← (if truthy method
                 then m ← index PAYMENT_METHODS method;
                      Ok (obj_set "m" (js_or m method) compressed)
                 else Ok compressed);
  signature ← get_prop fullPayload "signature";
  compressed ← addSignature signature compressed;
  hashLookup ← storeActorAndPrev actorIdHash prevEventHash a p hashLookup;
  Ok (VObj compressed, hashLookup).

Definition compressDispensedMessage (fullPayload : value)
    (hashLookup : option (gmap string string))
  : result (value * option (gmap string string)) :=
  eventType ← get_prop fullPayload "eventType";
  e ← index EVENT_TYPES eventType;
  topicID ← get_prop fullPayload "topicID";
  timestamp ← get_prop fullPayload "timestamp";
  ts ← compressTimestamp timestamp;
  actorIdHash ← get_prop fullPayload "actorIdHash";
  a ← truncateHash actorIdHash 8;
  prevEventHash ← get_prop fullPayload "prevEventHash";
  p ← truncateHash prevEventHash 8;
  dispenseCount ← get_prop fullPayload "dispenseCount";
  maxDispenses ← get_prop fullPayload "maxDispenses";
  nonce ← get_prop fullPayload "nonce";
  n ← compressNonce nonce;
  let compressed :=
    [ ("e", js_or e (VStr "d")); ("t", topicID); ("ts", ts);
      ("a", VStr a); ("p", VStr p); ("dc", js_or dispenseCount (VNum 0));
      ("md", js_or maxDispenses (VNum 1)); ("n", n) ] in
  signature ← get_prop fullPayload "signature";
  compressed ← addSignature signature compressed;
  hashLookup ← storeActorAndPrev actorIdHash prevEventHash a p hashLookup;
  Ok (VObj compressed, hashLookup).

Definition compressVerifiedMessage (fullPayload : value)
    (hashLookup : option (gmap string string))
  : result (value * option (gmap string string)) :=
  eventType ← get_prop fullPayload "eventType";
  e ← index EVENT_TYPES eventType;
  topicID ← get_prop fullPayload "topicID";
  timestamp ← get_prop fullPayload "timestamp";
  ts ← compressTimestamp timestamp;
  actorIdHash ← get_prop fullPayload "actorIdHash";
  a ← truncateHash actorIdHash 8;
  prevEventHash ← get_prop fullPayload "prevEventHash";
  p ← truncateHash prevEventHash 8;
  dispenseCount ← get_prop fullPayload "dispenseCount";
  maxDispenses ← get_prop fullPayload "maxDispenses";
  nonce ← get_prop fullPayload "nonce";
  n ← compressNonce nonce;
  let compressed :=
    [ ("e", js_or e (VStr "v")); ("t", topicID); ("ts", ts);
      ("a", VStr a); ("p", VStr p); ("dc", js_or dispenseCount (VNum 0));
      ("md", js_or maxDispenses (VNum 1)); ("n", n) ] in
  fraudAlert ← get_prop fullPayload "fraudAlert";
  let compressed :=
    if truthy fraudAlert then obj_set "f" (VNum 1) compressed else compressed in
  signature ← get_prop fullPayload "signature";
  compressed ← addSignature signature compressed;
  hashLookup ← storeActorAndPrev actorIdHash prevEventHash a p hashLookup;
  Ok (VObj compressed, hashLookup).

(** [hashLookup] is [None] for a call without a table ([hashLookup = null]). *)
Definition compressPayload (fullPayload : value)
    (hashLookup : option (gmap string string))
  : result (value * option (gmap string string)) :=
  long ← get_prop fullPayload "eventType";
  eventType ← (if truthy long then Ok long else get_prop fullPayload "e");
  if is_str eventType "issued" || is_str eventType "i"
  then compressIssuedMessage fullPayload hashLookup
  else if is_str eventType "paid" || is_str eventType "p"
  then compressPaidMessage fullPayload hashLookup
  else if is_str eventType "dispensed" || is_str eventType "d"
  then compressDispensedMessage fullPayload hashLookup
  else if is_str eventType "verified" || is_str eventType "v"
  then compressVerifiedMessage fullPayload hashLookup
  else Ok (fullPayload, hashLookup).

(** the body of the [for ... of Object.entries(compressedPayload)] loop *)
Definition expandEntry (full : list (string * value)) (entry : string * value)
  : result (list (string * value)) :=
  let '(shortKey, value) := entry in
  if String.eqb shortKey "e" then
    long ← index EVENT_TYPES value;
    Ok (obj_set "eventType" (js_or long value) full)
  else if String.eqb shortKey "ts" then
    t ← decompressTimestamp value; Ok (obj_set "timestamp" t full)
  else if String.eqb shortKey "u" then
    t ← decompressTimestamp value; Ok (obj_set "validUntil" t full)
  else
    longKey ← ToString (js_or (obj_get REVERSE_FIELD_MAP shortKey) (VStr shortKey));
    Ok (obj_set longKey value full).

(** [if (full.short && hashLookup.has(full.short))
       full.long = `sha256:${hashLookup.get(full.short)}`] *)
Definition expandHashField (short long : string) (m : gmap string string)
    (full : list (string * value)) : result (list (string * value)) :=
  let v := obj_get full short in
  if truthy v && Map_has m v
  then s ← ToString (Map_get m v); Ok (obj_set long (VStr ("sha256:" +:+ s)) full)
  else Ok full.

(** [if (full.k && !full.k.startsWith(prefix)) full.k = `${prefix}${full.k}`] *)
Definition addPrefix (k prefix : string) (full : list (string * value))
  : result (list (string * value)) :=
  let v := obj_get full k in
  if truthy v then
    has ← call_startsWith v prefix;
    if has : bool then Ok full
    else s ← ToString v; Ok (obj_set k (VStr (prefix +:+ s)) full)
  else Ok full.

Definition decompressPayload (compressedPayload : value)
    (hashLookup : option (gmap string string)) : result value :=
  eventType ← get_prop compressedPayload "eventType";
  if truthy eventType then Ok compressedPayload
  else
    entries ← Object_entries compressedPayload;
    full ← foldM expandEntry entries [];
    full ← (let m := obj_get full "m" in
            if truthy m then
              method ← index PAYMENT_METHODS m;
              if truthy method then Ok (obj_set "method" method full) else Ok full
            else Ok full);
    full ← match hashLookup with
           | Some table =>
               full ← expandHashField "h" "hashedPatientId" table full;
               full ← expandHashField "a" "actorIdHash" table full;
               expandHashField "p" "prevEventHash" table full
           | None => Ok full
           end;
    full ← addPrefix "hashedPatientId" "sha256:" full;
    full ← addPrefix "actorIdHash" "sha256:" full;
    full ← addPrefix "signature" "hex:" full;
    Ok (VObj full).

End Codec.

(** ** A reference runtime

    An executable instance of [Runtime], used to run the model on concrete
    inputs.  It implements the proleptic Gregorian calendar of [Date] for
    the format [toISOString] prints (YYYY-MM-DDTHH:mm:ss.sssZ), number
    parsing and printing for plain decimal numerals (a number with a
    fraction is printed by its integer part), and the trigonometric
    functions by their power series, which agree with an engine's only up
    to rounding.  The general theorems hold for every runtime. *)

Module Reference.

Definition days_from_civil (y m d : Z) : Z :=
  let y := if m <=? 2 then y - 1 else y in
  let era := y / 400 in
  let yoe := y - era * 400 in
  let doy := (153 * (if 2 <? m then m - 3 else m + 9) + 2) / 5 + d - 1 in
  let doe := yoe * 365 + yoe / 4 - yoe / 100 + doy in
  era * 146097 + doe - 719468.

Definition civil_from_days (z : Z) : Z * Z * Z :=
  let z := z + 719468 in
  let era := z / 146097 in
  let doe := z - era * 146097 in
  let yoe := (doe - doe / 1460 + doe / 36524 - doe / 146096) / 365 in
  let doy := doe - (365 * yoe + yoe / 4 - yoe / 100) in
  let mp := (5 * doy + 2) / 153 in
  let d := doy - (153 * mp + 2) / 5 + 1 in
  let m := if mp <? 10 then mp + 3 else mp - 9 in
  let y := yoe + era * 400 + (if m <=? 2 then 1 else 0) in
  (y, m, d).

(** [width] decimal digits of [z], zero padded *)
Fixpoint padded (width : nat) (z : Z) (acc : string) : string :=
  match width with
  | O => acc
  | S w => padded w (z / 10) (String (digit_char (z mod 10)) acc)
  end.

Definition toISOString (t : Z) : string :=
  let '(y, m, d) := civil_from_days (t / 86400000) in
  let ms := t mod 86400000 in
  let year :=
    if (0 <=? y) && (y <=? 9999) then padded 4 y ""
    else String (if y <? 0 then "-"%char else "+"%char) (padded 6 (Z.abs y) "") in
  year +:+ "-" +:+ padded 2 m "" +:+ "-" +:+ padded 2 d "" +:+ "T"
  +:+ padded 2 (ms / 3600000) "" +:+ ":" +:+ padded 2 (ms / 60000 mod 60) ""
  +:+ ":" +:+ padded 2 (ms / 1000 mod 60) "" +:+ "."
  +:+ padded 3 (ms mod 1000) "" +:+ "Z".

Definition digit_value (a : ascii) : option Z :=
  let n := Z.of_N (N_of_ascii a) in
  if (48 <=? n) && (n <=? 57) then Some (n - 48) else None.

(** a run of decimal digits: its value and its length, [None] if another
    character occurs *)
Fixpoint digits (s : string) (acc : Z) (len : Z) : option (Z * Z) :=
  match s with
  | EmptyString => Some (acc, len)
  | String a s' =>
      match digit_value a with
      | Some d => digits s' (10 * acc + d) (len + 1)
      | None => None
      end
  end.

Definition field (from len : nat) (s : string) : option Z :=
  '(v, _) ← digits (take_chars len (drop_chars from s)) 0 0; Some v.

Definition parse (s : string) : option Z :=
  if negb (Nat.eqb (String.length s) 24) then None
  else if negb (String.eqb (take_chars 1 (drop_chars 4 s)) "-"
                && String.eqb (take_chars 1 (drop_chars 7 s)) "-"
                && String.eqb (take_chars 1 (drop_chars 10 s)) "T"
                && String.eqb (take_chars 1 (drop_chars 13 s)) ":"
                && String.eqb (take_chars 1 (drop_chars 16 s)) ":"
                && String.eqb (take_chars 1 (drop_chars 19 s)) "."
                && String.eqb (drop_chars 23 s) "Z") then None
  else
    y ← field 0 4 s; m ← field 5 2 s; d ← field 8 2 s;
    hh ← field 11 2 s; mm ← field 14 2 s; ss ← field 17 2 s;
    ms ← field 20 3 s;
    if (1 <=? m) && (m <=? 12) && (1 <=? d) && (d <=? 31)
       && (hh <=? 23) && (mm <=? 59) && (ss <=? 59)
    then Some (days_from_civil y m d * 86400000
               + hh * 3600000 + mm * 60000 + ss * 1000 + ms)
    else None.

Definition number_toString (x : float) : string :=
  match Prim2SF x with
  | S754_zero _ => "0"
  | S754_infinity s => if s then "-Infinity" else "Infinity"
  | S754_nan => "NaN"
  | S754_finite s m e => Z_to_string (trunc_Z s m e)
  end.

(** an optional sign, digits, and an optional fraction *)
Definition decimal (s : string) : float :=
  let '(neg, body) :=
    match s with
    | String "-" s' => (true, s')
    | String "+" s' => (false, s')
    | _ => (false, s)
    end in
  let parts := split_char "." body in
  let int := nth 0 parts "" in
  let frac := nth 1 parts "" in
  if (2 <? Z.of_nat (length parts)) || String.eqb (int +:+ frac) "" then nan
  else
    match digits int 0 0, digits frac 0 0 with
    | Some (i, _), Some (f, k) =>
        let x := (Z2float (i * 10 ^ k + f) / Z2float (10 ^ k))%float in
        if neg then PrimFloat.opp x else x
    | _, _ => nan
    end.

Definition stringToNumber (s : string) : float :=
  if String.eqb s "" then 0%float else decimal s.

(** [x - x^3/3! + x^5/5! - ...] from term [k], and the cosine likewise *)
Fixpoint alternating (fuel : nat) (k : Z) (term x2 acc : float) : float :=
  match fuel with
  | O => acc
  | S fuel' =>
      let term' := (- term * x2 / Z2float ((k + 1) * (k + 2)))%float in
      alternating fuel' (k + 2) term' x2 (acc + term')%float
  end.

Definition sin (x : float) : float := alternating 24 1 x (x * x) x.
Definition cos (x : float) : float := alternating 24 0 1 (x * x) 1.

(** [t - t^3/3 + t^5/5 - ...], for a small [t] *)
Fixpoint arctan_series (fuel : nat) (k : Z) (power t2 acc : float) : float :=
  match fuel with
  | O => acc
  | S fuel' =>
      let power' := (- power * t2)%float in
      arctan_series fuel' (k + 2) power' t2 (acc + power' / Z2float (k + 2))%float
  end.

(** halve the angle twice, then sum the series *)
Definition arctan_unit (t : float) : float :=
  let half u := (u / (1 + PrimFloat.sqrt (1 + u * u)))%float in
  let u := half (half t) in
  (4 * arctan_series 40 1 u (u * u) u)%float.

Definition arctan (t : float) : float :=
  if PrimFloat.ltb 1 (PrimFloat.abs t)
  then
    let r := (Math_PI / 2 - arctan_unit (1 / PrimFloat.abs t))%float in
    if PrimFloat.ltb t 0 then PrimFloat.opp r else r
  else arctan_unit t.

Definition atan2 (y x : float) : float :=
  if is_nan y || is_nan x then nan
  else if PrimFloat.ltb 0 x then arctan (y / x)
  else if PrimFloat.ltb x 0 then
    if PrimFloat.ltb y 0 then (arctan (y / x) - Math_PI)%float
    else (arctan (y / x) + Math_PI)%float
  else if PrimFloat.ltb 0 y then (Math_PI / 2)%float
  else if PrimFloat.ltb y 0 then (- (Math_PI / 2))%float
  else 0%float.

#[global] Instance runtime : Runtime := {
  Date_now := 1761652800000;
  Date_parse := parse;
  Date_toISOString := toISOString;
  Number_toString := number_toString;
  StringToNumber := stringToNumber;
  parseFloat := decimal;
  Math_sin := sin;
  Math_cos := cos;
  Math_atan2 := atan2;
  Function_toString := fun n => "function " +:+ n +:+ "() { [native code] }"
}.

End Reference.

(** ** services/statusReconciliation.js

    The module's state is its two [Map]s, the store it writes through
    [setTopicStatus] (services/store.js), and the event loop: the timers
    set by [scheduleRetry] and the calls of [retryConfirmation] suspended
    at their [await].  A pending record is a mutable object that a
    suspended call keeps a reference to, so records live in a heap and
    [pendingConfirmations] maps a topic to the address of its record.
    [clock] gives the successive readings of [Date.now()]; [reads] counts
    the readings taken. *)

Module Reconciliation.

Definition MAX_RETRIES : nat := 5.
Definition RETRY_DELAYS : list Z := [2000; 5000; 10000; 20000; 30000].
Definition DISPENSE_LOCK_TIMEOUT : Z := 30000.

Record pending : Type := Pending {
  status : string; timestamp : Z; retries : nat; confirmed : bool;
  metadata : value
}.

Record lock : Type := Lock { pharmacistId : string; acquiredAt : Z }.

(** an entry of [inMemoryStore] *)
Record entry : Type := Entry {
  payload : value; insertedAt : Z; validUntil : value; entryStatus : string
}.

Record state : Type := State {
  reads : nat;
  inMemoryStore : gmap string entry;
  next : nat;
  heap : gmap nat pending;
  pendingConfirmations : gmap string nat;
  activeDispenseOperations : gmap string lock;
  timers : list (Z * string);
  suspended : list (string * nat)
}.

Definition init : state := State 0 ∅ 0 ∅ ∅ ∅ [] [].

(** what [await getTopicStatusFromHedera(topicId)] produces *)
Inductive outcome : Type :=
| Resolved (mirrorStatus : string)
| Rejected.

Definition set_store (f : gmap string entry -> gmap string entry) (s : state) : state :=
  State (reads s) (f (inMemoryStore s)) (next s) (heap s)
        (pendingConfirmations s) (activeDispenseOperations s) (timers s)
        (suspended s).

Definition set_heap (f : gmap nat pending -> gmap nat pending) (s : state) : state :=
  State (reads s) (inMemoryStore s) (next s) (f (heap s))
        (pendingConfirmations s) (activeDispenseOperations s) (timers s)
        (suspended s).

Definition set_pending (f : gmap string nat -> gmap string nat) (s : state) : state :=
  State (reads s) (inMemoryStore s) (next s) (heap s)
        (f (pendingConfirmations s)) (activeDispenseOperations s) (timers s)
        (suspended s).

Definition set_locks (f : gmap string lock -> gmap string lock) (s : state) : state :=
  State (reads s) (inMemoryStore s) (next s) (heap s)
        (pendingConfirmations s) (f (activeDispenseOperations s)) (timers s)
        (suspended s).

Definition set_timers (f : list (Z * string) -> list (Z * string)) (s : state) : state :=
  State (reads s) (inMemoryStore s) (next s) (heap s)
        (pendingConfirmations s) (activeDispenseOperations s) (f (timers s))
        (suspended s).

Definition set_suspended (f : list (string * nat) -> list (string * nat)) (s : state) : state :=
  State (reads s) (inMemoryStore s) (next s) (heap s)
        (pendingConfirmations s) (activeDispenseOperations s) (timers s)
        (f (suspended s)).

(** [{ ... }]: a new object *)
Definition alloc (p : pending) (s : state) : nat * state :=
  (next s,
   State (reads s) (inMemoryStore s) (S (next s)) (<[next s := p]> (heap s))
         (pendingConfirmations s) (activeDispenseOperations s) (timers s)
         (suspended s)).

Section WithClock.
Variable clock : nat -> Z.

Definition Date_now (s : state) : Z * state :=
  (clock (reads s),
   State (S (reads s)) (inMemoryStore s) (next s) (heap s)
         (pendingConfirmations s) (activeDispenseOperations s) (timers s)
         (suspended s)).

(** services/store.js *)
Definition setTopicStatus (topicId status : string) (s : state) : state :=
  match inMemoryStore s !! topicId with
  | Some e =>
      set_store <[topicId := Entry (payload e) (insertedAt e) (validUntil e) status]> s
  | None =>
      let '(now, s) := Date_now s in
      set_store <[topicId := Entry VNull now VNull status]> s
  end.

Definition scheduleRetry (topicId : string) (s : state) : state :=
  match pendingConfirmations s !! topicId with
  | None => s
  | Some l =>
      match heap s !! l with
      | None => s
      | Some pending =>
          if confirmed pending then s
          else
            let delay :=
              match RETRY_DELAYS !! retries pending with
              | Some d => d
              | None => default 0 (last RETRY_DELAYS)
              end in
            set_timers (fun q => (q ++ [(delay, topicId)])%list) s
      end
  end.

Definition submitStatusUpdate (topicId newStatus : string) (metadata : value)
    (s : state) : state :=
  let s := setTopicStatus topicId newStatus s in
  let '(now, s) := Date_now s in
  let '(l, s) := alloc (Pending newStatus now 0 false metadata) s in
  let s := set_pending <[topicId := l]> s in
  scheduleRetry topicId s.

(** [retryConfirmation] up to its [await]: the call returns at once, or
    keeps [pending] and is suspended until the query settles. *)
Definition retryConfirmation_begin (topicId : string) (s : state) : state :=
  match pendingConfirmations s !! topicId with
  | None => s
  | Some l =>
      match heap s !! l with
      | None => s
      | Some pending =>
          if confirmed pending then s
          else set_suspended (fun q => (q ++ [(topicId, l)])%list) s
      end
  end.

(** [retryConfirmation] from its [await] on; [l] is the record the call
    read before it was suspended. *)
Definition retryConfirmation_resume (topicId : string) (l : nat) (o : outcome)
    (s : state) : state :=
  match heap s !! l with
  | None => s
  | Some pending =>
      let retry (s : state) :=
        set_heap <[l := Pending (status pending) (timestamp pending)
                           (S (retries pending)) (confirmed pending)
                           (metadata pending)]> s in
      match o with
      | Resolved mirrorStatus =>
          if String.eqb mirrorStatus (status pending) then
            let s := set_heap <[l := Pending (status pending) (timestamp pending)
                                       (retries pending) true (metadata pending)]> s in
            set_pending (delete topicId) s
          else if negb (String.eqb mirrorStatus "unknown") then
            let s := setTopicStatus topicId mirrorStatus s in
            let s := set_heap <[l := Pending mirrorStatus (timestamp pending)
                                       (retries pending) true (metadata pending)]> s in
            set_pending (delete topicId) s
          else
            let s := retry s in
            if (S (retries pending) <? MAX_RETRIES)%nat then scheduleRetry topicId s
            else set_heap <[l := Pending (status pending) (timestamp pending)
                                    (S (retries pending)) false (metadata pending)]> s
      | Rejected =>
          let s := retry s in
          if (S (retries pending) <? MAX_RETRIES)%nat then scheduleRetry topicId s
          else s
      end
  end.

(** the tail of [acquireDispenseLock]: take the lock *)
Definition takeLock (topicId pharmacistId : string) (s : state) : bool * state :=
  let '(now, s) := Date_now s in
  (true, set_locks <[topicId := Lock pharmacistId now]> s).

Definition acquireDispenseLock (topicId pharmacistId : string) (s : state)
  : bool * state :=
  match activeDispenseOperations s !! topicId with
  | Some existing =>
      let '(now, s) := Date_now s in
      let age := now - acquiredAt existing in
      if DISPENSE_LOCK_TIMEOUT <? age
      then takeLock topicId pharmacistId (set_locks (delete topicId) s)
      else (false, s)
  | None => takeLock topicId pharmacistId s
  end.

Definition releaseDispenseLock (topicId : string) (s : state) : state :=
  set_locks (delete topicId) s.

Definition isDispenseLocked (topicId : string) (s : state) : bool * state :=
  match activeDispenseOperations s !! topicId with
  | None => (false, s)
  | Some l =>
      let '(now, s) := Date_now s in
      let age := now - acquiredAt l in
      if DISPENSE_LOCK_TIMEOUT <? age
      then (false, set_locks (delete topicId) s)
      else (true, s)
  end.

Definition getConfirmationStatus (topicId : string) (s : state) : value * state :=
  match l ← pendingConfirmations s !! topicId; heap s !! l with
  | None =>
      (VObj [ ("confirmed", VBool true); ("status", VNull);
              ("isPending", VBool false) ], s)
  | Some pending =>
      let '(now, s) := Date_now s in
      (VObj [ ("confirmed", VBool (confirmed pending));
              ("status", VStr (status pending));
              ("isPending", VBool true);
              ("retries", VNum (Z2float (Z.of_nat (retries pending))));
              ("age", VNum (Z2float (now - timestamp pending))) ], s)
  end.

(** One turn of the event loop: a call from outside, a timer that fires,
    or a suspended [retryConfirmation] whose query has settled.  Timers
    and suspended calls are picked by their position in the queue, in any
    order. *)
Inductive event : Type :=
| Submit (topicId newStatus : string) (metadata : value)
| TimerFires (i : nat)
| QuerySettles (i : nat) (o : outcome)
| Acquire (topicId pharmacistId : string)
| Release (topicId : string)
| IsLocked (topicId : string)
| Status (topicId : string)
| StoreWrite (topicId status : string).

Definition handle (e : event) (s : state) : state :=
  match e with
  | Submit topicId newStatus metadata =>
      submitStatusUpdate topicId newStatus metadata s
  | TimerFires i =>
      match timers s !! i with
      | Some (_, topicId) =>
          retryConfirmation_begin topicId (set_timers (delete i) s)
      | None => s
      end
  | QuerySettles i o =>
      match suspended s !! i with
      | Some (topicId, l) =>
          retryConfirmation_resume topicId l o (set_suspended (delete i) s)
      | None => s
      end
  | Acquire topicId pharmacistId => (acquireDispenseLock topicId pharmacistId s).2
  | Release topicId => releaseDispenseLock topicId s
  | IsLocked topicId => (isDispenseLocked topicId s).2
  | Status topicId => (getConfirmationStatus topicId s).2
  | StoreWrite topicId st => setTopicStatus topicId st s
  end.

(** the state after a history of events *)
Definition run (events : list event) : state :=
  fold_left (fun s e => handle e s) events init.

End WithClock.
End Reconciliation.

(** * Vocabulary of the statements *)

(** Sample events, from the repository's test suites *)

Definition issued_event : value :=
  VObj [ ("eventType", VStr "issued"); ("topicID", VStr "0.0.12345");
         ("timestamp", VStr "2025-10-28T12:00:00.000Z");
         ("validUntil", VStr "2025-12-27T12:00:00.000Z");
         ("geoTag", VStr "MA-CAS");
         ("hashedPatientId",
          VStr "sha256:a7f3c2d1e8b4a9f6c3d7e2b5a8f1c4d6e9b2a5f8c1d4e7b0a3f6c9d2e5b8a1f4");
         ("maxDispenses", VNum 1); ("dispenseCount", VNum 0);
         ("nonce", VStr "n"); ("signature", VStr "hex:s") ].

Definition paid_event : value :=
  VObj [ ("eventType", VStr "paid"); ("topicID", VStr "0.0.12345");
         ("timestamp", VStr "2025-10-28T12:05:00.000Z");
         ("actorIdHash",
          VStr "sha256:b2e4c1d5a8f7b3e9c6d2a5f8b1e4c7d0a3f6b9e2c5d8a1f4b7e0c3d6a9f2b5e8");
         ("amountMAD", VNum 150.75); ("method", VStr "cash");
         ("prevEventHash",
          VStr "sha256:c1d5e7a1f4b8c2d6e9a3f7b0c4d8e1a5f9b2c6d0e3a7f1b5c8d2e6a0f3b7c1d4");
         ("nonce", VStr "nonce123"); ("signature", VStr "hex:sig123") ].

(** the event types [compressPayload] has a compressor for *)
Definition dispatched : list string :=
  [ "issued"; "i"; "paid"; "p"; "dispensed"; "d"; "verified"; "v" ].

(** the digits a digest is printed with *)
Definition is_lower_hex_char (a : ascii) : bool :=
  let n := N_of_ascii a in
  ((48 <=? n) && (n <=? 57) || (97 <=? n) && (n <=? 102))%N.

(** [table.set(k, v)] for each pair in turn *)
Definition write_all (ws : list (string * string)) (m : gmap string string)
  : gmap string string :=
  fold_left (fun m kv => <[kv.1 := kv.2]> m) ws m.

(** [v.k], and [undefined] where reading it throws *)
Definition prop (v : value) (k : string) : value :=
  match get_prop v k with
  | Ok x => x
  | Throw _ => VUndef
  end.

(** the write made for an identifier [x] under the truncation [key]:
    [if (x) table.set(key, x.replace(/^(sha256:|hex:)/, ''))] *)
Definition write_for (x key : value) : list (string * string) :=
  if truthy x then
    match x, key with
    | VStr s, VStr k => [(k, strip_hash_prefix s)]
    | _, _ => []
    end
  else [].

(** the writes of a variant compressor, read off the event and the wire
    object it returned: one for each hashed identifier of the event whose
    truncation the wire object carries *)
Definition compressor_writes (fullPayload wire : value) : list (string * string) :=
  (write_for (prop fullPayload "hashedPatientId") (prop wire "h")
   ++ write_for (prop fullPayload "actorIdHash") (prop wire "a")
   ++ write_for (prop fullPayload "prevEventHash") (prop wire "p"))%list.

(** the short keys that [decompressPayload] reads on the full object *)
Definition read_short (k : string) : Prop := In k ["m"; "h"; "a"; "p"].

(** the codes of the catalogue, and the fallback *)
Definition catalogue_code (c : string) : Prop :=
  In c (map code MOROCCAN_CITIES) \/ c = FALLBACK_CODE.

Module R := Reconciliation.

(** a clock that is read every 20 seconds *)
Definition every_20s (n : nat) : Z := 20000 * Z.of_nat n.

(** What the histories preserve, in terms of the next free address [n],
    the heap [h], [pendingConfirmations], the timers and the suspended
    calls: a record in the map is allocated and unconfirmed, belongs to
    one topic, is the only record a call suspended on it can meet under
    its topic, and, below the retry ceiling, has a timer set or a call
    suspended. *)
Record consistent (n : nat) (h : gmap nat R.pending) (pc : gmap string nat)
    (tm : list (Z * string)) (su : list (string * nat)) : Prop := Consistent {
  unconfirmed : forall t l, pc !! t = Some l ->
    exists p, h !! l = Some p /\ R.confirmed p = false;
  allocated : forall l, is_Some (h !! l) -> (l < n)%nat;
  one_topic : forall t t' l, pc !! t = Some l -> pc !! t' = Some l -> t = t';
  suspended_allocated : forall t l, (t, l) ∈ su -> is_Some (h !! l);
  suspended_owner : forall t l t', (t, l) ∈ su -> pc !! t' = Some l -> t' = t;
  scheduled : forall t l p, pc !! t = Some l -> h !! l = Some p ->
    (R.retries p < R.MAX_RETRIES)%nat ->
    (exists d, (d, t) ∈ tm) \/ (t, l) ∈ su
}.

Definition consistent_state (s : R.state) : Prop :=
  consistent (R.next s) (R.heap s) (R.pendingConfirmations s) (R.timers s)
             (R.suspended s).

(** * Properties *)

(** ** Event-type dispatch *)

Lemma is_str_false (v : value) (lit : string) :
  v <> VStr lit -> is_str v lit = false.
Proof.
  destruct v as [| | | |s| | |]; simpl; try reflexivity.
  intros Hne. destruct (String.eqb_spec s lit) as [->|]; [congruence|reflexivity].
Qed.

Section CodecProperties.
Context `{Runtime}.

(** C6.  A payload whose event type, the value [compressPayload] dispatches
    on ([fullPayload.eventType], or [fullPayload.e] when that is falsy),
    is none of issued/i, paid/p, dispensed/d, verified/v comes back
    unchanged, with the table untouched and nothing thrown; the
    compressor-less cancelled/c is such a type. *)
Theorem compressPayload_unknown_type_passthrough
    (fullPayload long short : value) (hashLookup : option (gmap string string)) :
  get_prop fullPayload "eventType" = Ok long ->
  get_prop fullPayload "e" = Ok short ->
  (forall k, In k dispatched -> js_or long short <> VStr k) ->
  compressPayload fullPayload hashLookup = Ok (fullPayload, hashLookup).
Proof.
  intros Hlong Hshort Hunknown.
  assert (Het : (if truthy long then Ok long else get_prop fullPayload "e")
                = Ok (js_or long short)).
  { unfold js_or. destruct (truthy long); [reflexivity|exact Hshort]. }
  unfold compressPayload. rewrite Hlong. cbn [mbind result_bind].
  rewrite Het. cbn [mbind result_bind].
  rewrite !is_str_false by (apply Hunknown; cbn; tauto).
  reflexivity.
Qed.

(** C8, as amended.  An object whose [eventType] is truthy is returned as
    it is, whatever else it holds and whatever table is passed. *)
Theorem decompressPayload_full_form_unchanged
    (x eventType : value) (hashLookup : option (gmap string string)) :
  get_prop x "eventType" = Ok eventType ->
  truthy eventType = true ->
  decompressPayload x hashLookup = Ok x.
Proof.
  intros Hget Htruthy. unfold decompressPayload.
  rewrite Hget. cbn [mbind result_bind]. rewrite Htruthy. reflexivity.
Qed.

(** C1, the decoding half as the code has it.  A wire object with [m: 1]
    (2, 3) decompresses to a [method] that is still the number: the rename
    loop has moved [m] to [method] before [full.m] is read, so the payment
    method is never expanded to its name. *)
Theorem decompressPayload_method_stays_numeric :
  decompressPayload (VObj [("e", VStr "p"); ("m", VNum 1)]) None
    = Ok (VObj [("eventType", VStr "paid"); ("method", VNum 1)])
  /\ decompressPayload (VObj [("e", VStr "p"); ("m", VNum 2)]) None
    = Ok (VObj [("eventType", VStr "paid"); ("method", VNum 2)])
  /\ decompressPayload (VObj [("e", VStr "p"); ("m", VNum 3)]) None
    = Ok (VObj [("eventType", VStr "paid"); ("method", VNum 3)]).
Proof. repeat split; reflexivity. Qed.

(** C4, at the previous-event hash.  Without a table the actor hash comes
    back truncated and prefixed, the previous-event hash truncated and
    bare: only [hashedPatientId] and [actorIdHash] get the prefix. *)
Theorem decompressPayload_prevEventHash_unprefixed :
  decompressPayload
    (VObj [("e", VStr "p"); ("t", VStr "0.0.12345");
           ("a", VStr "b2e4c1d5"); ("p", VStr "c1d5e7a1")]) None
  = Ok (VObj [("eventType", VStr "paid"); ("topicID", VStr "0.0.12345");
              ("actorIdHash", VStr "sha256:b2e4c1d5");
              ("prevEventHash", VStr "c1d5e7a1")]).
Proof. reflexivity. Qed.

(** Nor is decompression total: a truthy [h] that is not a string has no
    [startsWith], and the call made to add the prefix throws. *)
Lemma decompressPayload_throws_on_numeric_hash :
  decompressPayload (VObj [("e", VStr "i"); ("h", VNum 123)]) None
  = Throw TypeError.
Proof. reflexivity. Qed.

End CodecProperties.

(** C3, at the hashed identifier.  Compressing the ISSUED event of the
    test suite with an empty table and decompressing the result with the
    table that compression filled restores [eventType], [topicID],
    [maxDispenses] and [dispenseCount], and leaves [hashedPatientId] at its
    eight-character truncation: the table holds the full hash, but
    [full.h] is read after the loop renamed [h] to [hashedPatientId], so
    the table is never consulted. *)
Theorem roundtrip_hash_stays_truncated :
  let fullHash := "a7f3c2d1e8b4a9f6c3d7e2b5a8f1c4d6e9b2a5f8c1d4e7b0a3f6c9d2e5b8a1f4" in
  let wire :=
    VObj [ ("e", VStr "i"); ("t", VStr "0.0.12345"); ("ts", VNum 1761652800);
           ("u", VNum 1766836800); ("g", VStr "MA-CAS"); ("h", VStr "a7f3c2d1");
           ("md", VNum 1); ("dc", VNum 0); ("n", VStr "n"); ("s", VStr "s") ] in
  let table : gmap string string := {[ "a7f3c2d1" := fullHash ]} in
  compressPayload issued_event (Some ∅) = Ok (wire, Some table)
  /\ decompressPayload wire (Some table)
     = Ok (VObj [ ("eventType", VStr "issued"); ("topicID", VStr "0.0.12345");
                  ("timestamp", VStr "2025-10-28T12:00:00.000Z");
                  ("validUntil", VStr "2025-12-27T12:00:00.000Z");
                  ("geoTag", VStr "MA-CAS");
                  ("hashedPatientId", VStr "sha256:a7f3c2d1");
                  ("maxDispenses", VNum 1); ("dispenseCount", VNum 0);
                  ("nonce", VStr "n"); ("signature", VStr "hex:s") ])
  /\ VStr "sha256:a7f3c2d1" <> VStr ("sha256:" +:+ fullHash).
Proof.
  cbv zeta. split; [|split].
  - vm_compute. reflexivity.
  - vm_compute. reflexivity.
  - discriminate.
Qed.

(** The encoding half of C1 on the PAID event of the test suite: cash is
    sent as [m: 1], the amount rounded, the nonce cut to six characters. *)
Example paid_event_compressed :
  compressPayload paid_event None
  = Ok (VObj [ ("e", VStr "p"); ("t", VStr "0.0.12345"); ("ts", VNum 1761653100);
               ("a", VStr "b2e4c1d5"); ("p", VStr "c1d5e7a1");
               ("n", VStr "nonce1"); ("amt", VNum 151); ("m", VNum 1);
               ("s", VStr "sig123") ], None).
Proof. vm_compute. reflexivity. Qed.

(** C8 as stated fails: an object that carries the [eventType] key with
    an empty value is not passed through, and its short keys are expanded. *)
Lemma decompressPayload_falsy_eventType_expanded :
  let x := VObj [("eventType", VStr ""); ("h", VStr "a7f3c2d1")] in
  decompressPayload x None
    = Ok (VObj [("eventType", VStr ""); ("hashedPatientId", VStr "sha256:a7f3c2d1")])
  /\ decompressPayload x None <> Ok x.
Proof. split; [reflexivity|discriminate]. Qed.

Lemma decompressPayload_full_form_unchanged_witness :
  decompressPayload issued_event (Some ∅) = Ok issued_event.
Proof.
  apply (decompressPayload_full_form_unchanged issued_event (VStr "issued"));
    reflexivity.
Defined.

Lemma compressPayload_unknown_type_passthrough_witness :
  let cancelled := VObj [("eventType", VStr "cancelled"); ("topicID", VStr "0.0.7")] in
  compressPayload cancelled (Some ∅) = Ok (cancelled, Some ∅).
Proof.
  apply (compressPayload_unknown_type_passthrough _ (VStr "cancelled") VUndef);
    [reflexivity | reflexivity |].
  intros k Hk. cbn in Hk.
  destruct Hk as [<-|[<-|[<-|[<-|[<-|[<-|[<-|[<-|[]]]]]]]]]; discriminate.
Defined.

(** ** Hash truncation *)

Lemma hexdigit_lower_hex (n : nat) : is_lower_hex_char (Sha256.hexdigit n) = true.
Proof. do 16 (destruct n as [|n]; [reflexivity|]). reflexivity. Qed.

Lemma hex32_lower_hex (w : Z) (rest : string) :
  all_chars is_lower_hex_char rest = true ->
  all_chars is_lower_hex_char (Sha256.hex32 w rest) = true.
Proof.
  intros Hrest. unfold Sha256.hex32, Sha256.nibble.
  cbn [all_chars]. rewrite !hexdigit_lower_hex, Hrest. reflexivity.
Qed.

Lemma digest_lower_hex (data : string) :
  all_chars is_lower_hex_char (Sha256.digest data) = true.
Proof.
  unfold Sha256.digest, Sha256.hexdigest.
  repeat apply hex32_lower_hex. reflexivity.
Qed.

Lemma digest_length (data : string) :
  String.length (Sha256.digest data) = 64%nat.
Proof. reflexivity. Qed.

Lemma lower_hex_is_hex_char (a : ascii) :
  is_lower_hex_char a = true -> is_hex_char a = true.
Proof.
  unfold is_lower_hex_char, is_hex_char. intros ->. reflexivity.
Qed.

Lemma lower_hex_lower_char (a : ascii) :
  is_lower_hex_char a = true -> lower_char a = a.
Proof.
  destruct a as [[] [] [] [] [] [] [] []]; cbv; intros; congruence.
Qed.

Lemma lower_hex_not_prefixed (s : string) :
  all_chars is_lower_hex_char s = true -> strip_hash_prefix s = s.
Proof.
  destruct s as [|a s]; [reflexivity|].
  cbn [all_chars]. intros [Ha _]%andb_prop.
  destruct a as [[] [] [] [] [] [] [] []]; try discriminate Ha; reflexivity.
Qed.

Lemma all_chars_take (p : ascii -> bool) (n : nat) (s : string) :
  all_chars p s = true -> all_chars p (take_chars n s) = true.
Proof.
  revert s. induction n as [|n IH]; intros [|a s]; cbn; try reflexivity.
  intros [-> Hs]%andb_prop. cbn. auto.
Qed.

Lemma lower_hex_is_hex (s : string) :
  all_chars is_lower_hex_char s = true -> all_chars is_hex_char s = true.
Proof.
  induction s as [|a s IH]; cbn; [reflexivity|].
  intros [Ha Hs]%andb_prop. rewrite (lower_hex_is_hex_char a Ha), IH by assumption.
  reflexivity.
Qed.

Lemma lower_hex_toLowerCase (s : string) :
  all_chars is_lower_hex_char s = true -> toLowerCase s = s.
Proof.
  unfold toLowerCase. induction s as [|a s IH]; cbn; [reflexivity|].
  intros [Ha Hs]%andb_prop. rewrite (lower_hex_lower_char a Ha), IH by assumption.
  reflexivity.
Qed.

Lemma take_chars_length (n : nat) (s : string) :
  (n <= String.length s)%nat -> String.length (take_chars n s) = n.
Proof.
  revert s. induction n as [|n IH]; intros [|a s]; cbn; try reflexivity; try lia.
  intros Hle. rewrite IH by lia. reflexivity.
Qed.

Lemma take_chars_length_le (n : nat) (s : string) :
  (String.length (take_chars n s) <= n)%nat.
Proof.
  revert s. induction n as [|n IH]; intros [|a s]; cbn; try lia.
  specialize (IH s). lia.
Qed.

(** On a digest, [truncateHash] keeps the first [n] digits. *)
Lemma truncateHash_digest (data : string) (n : nat) :
  (0 < n)%nat ->
  truncateHash (VStr (Sha256.digest data)) (Z.of_nat n)
    = Ok (take_chars n (Sha256.digest data)).
Proof.
  intros Hn.
  pose proof (digest_lower_hex data) as Hhex.
  pose proof (digest_length data) as Hlen.
  unfold truncateHash, call_replace_prefix.
  destruct (Sha256.digest data) as [|a s] eqn:Hd; [discriminate Hlen|].
  cbn [truthy negb String.eqb mbind result_bind].
  rewrite lower_hex_not_prefixed by assumption.
  unfold is_hex. cbn [String.eqb negb andb].
  rewrite (lower_hex_is_hex _ Hhex). cbn [negb].
  unfold slice0. replace (Z.of_nat n <? 0) with false by lia.
  rewrite Nat2Z.id.
  rewrite lower_hex_toLowerCase by (apply all_chars_take; assumption).
  reflexivity.
Qed.

Lemma digest_nonempty (data : string) : String.eqb (Sha256.digest data) "" = false.
Proof.
  pose proof (digest_length data) as Hlen.
  destruct (Sha256.digest data); [discriminate Hlen|reflexivity].
Qed.

Lemma length_ne {s t : string} : String.length s <> String.length t -> s <> t.
Proof. congruence. Qed.

Lemma eqb_neq_false (s t : string) : s <> t -> String.eqb s t = false.
Proof. intros Hne. destruct (String.eqb_spec s t); congruence. Qed.

(** A collision in [hashAndStore]: the digest goes under the key of
    [truncateLength + 4] digits and the entry in the way is left alone. *)
Lemma hashAndStore_collision (data existing : string) (m : gmap string string) :
  let full := Sha256.digest data in
  m !! take_chars 8 full = Some existing ->
  existing <> "" ->
  existing <> full ->
  hashAndStore data (Some m) 8
    = Ok (Hashed full (take_chars 12 full),
          Some (<[take_chars 12 full := full]> m))
  /\ (<[take_chars 12 full := full]> m) !! take_chars 8 full = Some existing.
Proof.
  intros full Hm Hne Hdiff. subst full. unfold hashAndStore. cbv zeta.
  change 8 with (Z.of_nat 8).
  rewrite truncateHash_digest by lia.
  cbn [mbind result_bind]. rewrite Hm.
  rewrite (eqb_neq_false _ _ Hne), (eqb_neq_false _ _ Hdiff). cbn [negb andb].
  change (Z.of_nat 8 + 4) with (Z.of_nat 12).
  rewrite truncateHash_digest by lia.
  cbn [mbind result_bind]. split; [reflexivity|].
  rewrite lookup_insert_ne; [exact Hm|].
  apply length_ne.
  rewrite !take_chars_length by (rewrite digest_length; lia). lia.
Qed.

(** No entry in the way: the digest goes under its eight-digit key. *)
Lemma hashAndStore_fresh (data : string) (m : gmap string string) :
  let full := Sha256.digest data in
  m !! take_chars 8 full = None ->
  hashAndStore data (Some m) 8
    = Ok (Hashed full (take_chars 8 full), Some (<[take_chars 8 full := full]> m)).
Proof.
  intros full Hm. subst full. unfold hashAndStore. cbv zeta.
  change 8 with (Z.of_nat 8).
  rewrite truncateHash_digest by lia.
  cbn [mbind result_bind]. rewrite Hm. reflexivity.
Qed.

(** C5.  Two data values whose digests differ and share their first eight
    digits, stored one after the other in a table where that key was
    free: the first digest is under the eight-digit key, the second under
    its twelve-digit key, which the second call returns, and the table
    answers both. *)
Theorem hashAndStore_collision_escalation
    (data1 data2 : string) (m : gmap string string) :
  let full1 := Sha256.digest data1 in
  let full2 := Sha256.digest data2 in
  full1 <> full2 ->
  take_chars 8 full1 = take_chars 8 full2 ->
  m !! take_chars 8 full1 = None ->
  exists m1 m2,
    hashAndStore data1 (Some m) 8
      = Ok (Hashed full1 (take_chars 8 full1), Some m1)
    /\ hashAndStore data2 (Some m1) 8
      = Ok (Hashed full2 (take_chars 12 full2), Some m2)
    /\ String.length (take_chars 8 full1) = 8%nat
    /\ String.length (take_chars 12 full2) = 12%nat
    /\ m2 !! take_chars 8 full1 = Some full1
    /\ m2 !! take_chars 12 full2 = Some full2.
Proof.
  intros full1 full2 Hdiff Hprefix Hfree.
  exists (<[take_chars 8 full1 := full1]> m).
  exists (<[take_chars 12 full2 := full2]> (<[take_chars 8 full1 := full1]> m)).
  assert (Hstored : (<[take_chars 8 full1 := full1]> m) !! take_chars 8 full2
                    = Some full1).
  { rewrite <- Hprefix. apply lookup_insert_eq. }
  assert (Hne1 : full1 <> "").
  { intros Heq. pose proof (digest_nonempty data1) as Hn.
    fold full1 in Hn. rewrite Heq in Hn. discriminate Hn. }
  destruct (hashAndStore_collision data2 full1 _ Hstored Hne1 Hdiff)
    as [Hcall Hkept].
  split; [apply hashAndStore_fresh; exact Hfree|].
  split; [exact Hcall|].
  split; [apply take_chars_length; unfold full1; rewrite digest_length; lia|].
  split; [apply take_chars_length; unfold full2; rewrite digest_length; lia|].
  split; [fold full2 in Hkept; rewrite <- Hprefix in Hkept; exact Hkept|].
  apply lookup_insert_eq.
Qed.

Lemma hashAndStore_collision_escalation_witness :
  exists m1 m2,
    hashAndStore "patient-759" (Some ∅) 8
      = Ok (Hashed "257a4e6ce5c9045d4b949970d47a4022631294b551a5bf4d6b5da26be8bf70f8"
                   "257a4e6c", Some m1)
    /\ hashAndStore "patient-123328" (Some m1) 8
      = Ok (Hashed "257a4e6c98c261b4342ef3ce208f6e65eb9cc6bfccdda278c8f9e56fb5836803"
                   "257a4e6c98c2", Some m2)
    /\ String.length "257a4e6c" = 8%nat
    /\ String.length "257a4e6c98c2" = 12%nat
    /\ m2 !! "257a4e6c"
       = Some "257a4e6ce5c9045d4b949970d47a4022631294b551a5bf4d6b5da26be8bf70f8"
    /\ m2 !! "257a4e6c98c2"
       = Some "257a4e6c98c261b4342ef3ce208f6e65eb9cc6bfccdda278c8f9e56fb5836803".
Proof.
  apply (hashAndStore_collision_escalation "patient-759" "patient-123328" ∅).
  - vm_compute. discriminate.
  - vm_compute. reflexivity.
  - reflexivity.
Defined.

(** ** Table writes of the compressors *)

(** from a successful sequence to its steps *)
Ltac bind_inv H :=
  repeat match type of H with
    | mbind _ ?m = Ok _ =>
        let E := fresh "E" in
        destruct m eqn:E; cbn [mbind result_bind] in H; [|discriminate H]
    end.

Lemma map_chars_length (f : ascii -> ascii) (s : string) :
  String.length (map_chars f s) = String.length s.
Proof. induction s as [|a s IH]; cbn; congruence. Qed.

Lemma truncateHash_length (v : value) (h : string) :
  truncateHash v 8 = Ok h -> (String.length h <= 8)%nat.
Proof.
  unfold truncateHash. destruct (truthy v); cbn [negb].
  - intros Htr. bind_inv Htr.
    destruct (is_hex a); cbn [negb] in Htr; injection Htr as <-;
      unfold slice0; cbn [Z.ltb Z.compare Z.to_nat Pos.to_nat Pos.iter_op Nat.add];
      [unfold toLowerCase; rewrite map_chars_length|];
      apply (take_chars_length_le 8).
  - intros [= <-]. cbn. lia.
Qed.

Lemma obj_get_set_ne (k k' : string) (v : value) (fs : list (string * value)) :
  k <> k' -> obj_get (obj_set k v fs) k' = obj_get fs k'.
Proof.
  intros Hne. unfold obj_get.
  assert (Hassoc : assoc k' (obj_set k v fs) = assoc k' fs).
  { induction fs as [|[k0 v0] fs IH]; cbn.
    - rewrite eqb_neq_false by congruence. reflexivity.
    - destruct (String.eqb_spec k k0) as [->|Hk0]; cbn.
      + rewrite !eqb_neq_false by congruence. reflexivity.
      + rewrite IH. reflexivity. }
  rewrite Hassoc. reflexivity.
Qed.

Section TableWrites.
Context `{Runtime}.

Lemma addSignature_get (signature : value) (fs fs' : list (string * value))
    (k : string) :
  addSignature signature fs = Ok fs' -> k <> "s" -> obj_get fs' k = obj_get fs k.
Proof.
  unfold addSignature. destruct (truthy signature).
  - intros Hs Hk. bind_inv Hs. injection Hs as <-.
    apply obj_get_set_ne. congruence.
  - intros [= <-] _. reflexivity.
Qed.

Lemma write_for_undefined (x : value) : write_for x VUndef = [].
Proof. unfold write_for. destruct (truthy x), x; reflexivity. Qed.

Lemma write_for_key_length (x : value) (k : string) :
  (String.length k <= 8)%nat ->
  Forall (fun kv => (String.length kv.1 <= 8)%nat) (write_for x (VStr k)).
Proof.
  intros Hk. unfold write_for.
  destruct (truthy x), x; try solve [constructor].
  constructor; [exact Hk|constructor].
Qed.

Lemma storeHash_write (x : value) (key : string) (m m' : gmap string string) :
  storeHash x key m = Ok m' -> m' = write_all (write_for x (VStr key)) m.
Proof.
  unfold storeHash, write_for, removeHashPrefix.
  destruct (truthy x); cbn [negb].
  - intros Hs. bind_inv Hs. injection Hs as <-.
    destruct x; try discriminate. cbn in *. congruence.
  - intros [= <-]. reflexivity.
Qed.

(** the PAID, DISPENSED and VERIFIED compressors: the writes are those for
    the actor and the previous-event hash *)
Lemma actor_prev_writes (fullPayload actorIdHash prevEventHash : value)
    (fs : list (string * value)) (a p : string)
    (m : gmap string string) (lk' : option (gmap string string)) :
  get_prop fullPayload "actorIdHash" = Ok actorIdHash ->
  get_prop fullPayload "prevEventHash" = Ok prevEventHash ->
  truncateHash actorIdHash 8 = Ok a ->
  truncateHash prevEventHash 8 = Ok p ->
  obj_get fs "h" = VUndef -> obj_get fs "a" = VStr a -> obj_get fs "p" = VStr p ->
  storeActorAndPrev actorIdHash prevEventHash a p (Some m) = Ok lk' ->
  lk' = Some (write_all (compressor_writes fullPayload (VObj fs)) m)
  /\ Forall (fun kv => (String.length kv.1 <= 8)%nat)
            (compressor_writes fullPayload (VObj fs)).
Proof.
  intros Hactor Hprev Ha Hp Hfh Hfa Hfp Hs.
  unfold compressor_writes, prop. cbn [get_prop].
  rewrite Hactor, Hprev, Hfh, Hfa, Hfp, write_for_undefined. cbn [app].
  split.
  - unfold storeActorAndPrev in Hs. bind_inv Hs. injection Hs as <-.
    repeat match goal with
      | E : storeHash _ _ _ = Ok _ |- _ => apply storeHash_write in E; subst
      end.
    unfold write_all. rewrite fold_left_app. reflexivity.
  - apply Forall_app. split; apply write_for_key_length;
      eapply truncateHash_length; eassumption.
Qed.

Ltac field_kept :=
  repeat first
    [ erewrite addSignature_get by (eassumption || discriminate)
    | rewrite obj_get_set_ne by discriminate ];
  reflexivity.

Lemma compressIssuedMessage_writes (fullPayload w : value)
    (m : gmap string string) (lk' : option (gmap string string)) :
  compressIssuedMessage fullPayload (Some m) = Ok (w, lk') ->
  lk' = Some (write_all (compressor_writes fullPayload w) m)
  /\ Forall (fun kv => (String.length kv.1 <= 8)%nat) (compressor_writes fullPayload w).
Proof.
  unfold compressIssuedMessage. intros Hc. bind_inv Hc.
  injection Hc as <- <-.
  match goal with
  | E : mbind _ (storeHash _ _ _) = Ok _ |- _ => bind_inv E; injection E as <-
  end.
  match goal with
  | E : storeHash _ _ _ = Ok _ |- _ => apply storeHash_write in E; subst
  end.
  unfold compressor_writes, prop. cbn [get_prop].
  match goal with
  | E : get_prop fullPayload "hashedPatientId" = Ok _ |- _ => rewrite E
  end.
  match goal with
  | E : truncateHash _ 8 = Ok ?h |- _ =>
      replace (obj_get _ "h") with (VStr h) by (symmetry; field_kept)
  end.
  replace (obj_get _ "a") with VUndef by (symmetry; field_kept).
  replace (obj_get _ "p") with VUndef by (symmetry; field_kept).
  rewrite !write_for_undefined, !app_nil_r. split; [reflexivity|].
  apply write_for_key_length. eapply truncateHash_length; eassumption.
Qed.

Lemma compressPaidMessage_writes (fullPayload w : value)
    (m : gmap string string) (lk' : option (gmap string string)) :
  compressPaidMessage fullPayload (Some m) = Ok (w, lk') ->
  lk' = Some (write_all (compressor_writes fullPayload w) m)
  /\ Forall (fun kv => (String.length kv.1 <= 8)%nat) (compressor_writes fullPayload w).
Proof.
  unfold compressPaidMessage. intros Hc. bind_inv Hc.
  injection Hc as <- <-.
  match goal with
  | E : match ?x with VUndef => _ | _ => _ end = Ok _ |- _ =>
      destruct x; bind_inv E; injection E as <-
  end;
  match goal with
  | E : (if ?b then _ else _) = Ok _ |- _ =>
      destruct b; bind_inv E; injection E as <-
  end;
  (eapply actor_prev_writes; [eassumption..| | | |eassumption]; field_kept).
Qed.

Lemma compressDispensedMessage_writes (fullPayload w : value)
    (m : gmap string string) (lk' : option (gmap string string)) :
  compressDispensedMessage fullPayload (Some m) = Ok (w, lk') ->
  lk' = Some (write_all (compressor_writes fullPayload w) m)
  /\ Forall (fun kv => (String.length kv.1 <= 8)%nat) (compressor_writes fullPayload w).
Proof.
  unfold compressDispensedMessage. intros Hc. bind_inv Hc.
  injection Hc as <- <-.
  eapply actor_prev_writes; [eassumption..| | | |eassumption]; field_kept.
Qed.

Lemma compressVerifiedMessage_writes (fullPayload w : value)
    (m : gmap string string) (lk' : option (gmap string string)) :
  compressVerifiedMessage fullPayload (Some m) = Ok (w, lk') ->
  lk' = Some (write_all (compressor_writes fullPayload w) m)
  /\ Forall (fun kv => (String.length kv.1 <= 8)%nat) (compressor_writes fullPayload w).
Proof.
  unfold compressVerifiedMessage. intros Hc. bind_inv Hc.
  injection Hc as <- <-.
  match goal with
  | E : addSignature _ (if ?b then _ else _) = Ok _ |- _ => destruct b
  end;
  (eapply actor_prev_writes; [eassumption..| | | |eassumption]; field_kept).
Qed.

Lemma obj_get_set_eq (k : string) (v : value) (fs : list (string * value)) :
  obj_get (obj_set k v fs) k = v.
Proof.
  unfold obj_get.
  assert (Hassoc : assoc k (obj_set k v fs) = Some v).
  { induction fs as [|[k0 v0] fs IH]; cbn.
    - rewrite String.eqb_refl. reflexivity.
    - destruct (String.eqb_spec k k0) as [->|Hk0]; cbn.
      + rewrite String.eqb_refl. reflexivity.
      + rewrite eqb_neq_false by assumption. exact IH. }
  rewrite Hassoc. reflexivity.
Qed.

(** The encoding half of C1: a PAID event with method cash, card or hbar
    gets [m] 1, 2 or 3. *)
Lemma compressPaidMessage_method_code (fullPayload w : value) (name : string)
    (code : float) (hashLookup hashLookup' : option (gmap string string)) :
  In (name, code) [("cash", 1%float); ("card", 2%float); ("hbar", 3%float)] ->
  get_prop fullPayload "method" = Ok (VStr name) ->
  compressPaidMessage fullPayload hashLookup = Ok (w, hashLookup') ->
  get_prop w "m" = Ok (VNum code).
Proof.
  intros Hname Hmethod. unfold compressPaidMessage. intros Hc. bind_inv Hc.
  injection Hc as <- <-. cbn [get_prop]. f_equal.
  erewrite addSignature_get by (eassumption || discriminate).
  injection Hmethod as ->.
  cbn in Hname.
  destruct Hname as [[= <- <-]|[[= <- <-]|[[= <- <-]|[]]]];
    match goal with
    | E : (if truthy _ then _ else _) = Ok _ |- _ => cbn in E; injection E as <-
    end; apply obj_get_set_eq.
Qed.

(** A call that reaches a compressor leaves the table as it was with the
    compressor's writes applied, each under a key of at most eight
    characters. *)
Lemma compressPayload_writes (fullPayload long short w : value) (k : string)
    (m : gmap string string) (lk' : option (gmap string string)) :
  get_prop fullPayload "eventType" = Ok long ->
  get_prop fullPayload "e" = Ok short ->
  In k dispatched ->
  js_or long short = VStr k ->
  compressPayload fullPayload (Some m) = Ok (w, lk') ->
  lk' = Some (write_all (compressor_writes fullPayload w) m)
  /\ Forall (fun kv => (String.length kv.1 <= 8)%nat) (compressor_writes fullPayload w).
Proof.
  intros Hlong Hshort Hk Htype.
  assert (Het : (if truthy long then Ok long else get_prop fullPayload "e")
                = Ok (VStr k)).
  { rewrite <- Htype. unfold js_or.
    destruct (truthy long); [reflexivity|exact Hshort]. }
  unfold compressPayload. rewrite Hlong. cbn [mbind result_bind].
  rewrite Het. cbn [mbind result_bind].
  cbn in Hk.
  destruct Hk as [<-|[<-|[<-|[<-|[<-|[<-|[<-|[<-|[]]]]]]]]];
    cbn [is_str String.eqb Ascii.eqb Bool.eqb orb andb];
    eauto using compressIssuedMessage_writes, compressPaidMessage_writes,
      compressDispensedMessage_writes, compressVerifiedMessage_writes.
Qed.

End TableWrites.

(** C2 as stated fails for the compressors.  The table already maps
    a7f3c2d1 to another full hash; compressing the ISSUED event, whose
    patient hash truncates to the same eight digits, replaces that entry
    and stores nothing under a longer key. *)
Lemma compress_overwrites_colliding_entry :
  let other := "a7f3c2d100000000000000000000000000000000000000000000000000000000" in
  let fullHash := "a7f3c2d1e8b4a9f6c3d7e2b5a8f1c4d6e9b2a5f8c1d4e7b0a3f6c9d2e5b8a1f4" in
  let table : gmap string string := {[ "a7f3c2d1" := other ]} in
  exists wire table',
    compressPayload issued_event (Some table) = Ok (wire, Some table')
    /\ get_prop wire "h" = Ok (VStr "a7f3c2d1")
    /\ table !! "a7f3c2d1" = Some other
    /\ other <> fullHash
    /\ table' !! "a7f3c2d1" = Some fullHash
    /\ table' !! "a7f3c2d1e8b4" = None.
Proof.
  cbv zeta.
  exists (VObj [ ("e", VStr "i"); ("t", VStr "0.0.12345"); ("ts", VNum 1761652800);
                 ("u", VNum 1766836800); ("g", VStr "MA-CAS"); ("h", VStr "a7f3c2d1");
                 ("md", VNum 1); ("dc", VNum 0); ("n", VStr "n"); ("s", VStr "s") ]).
  exists {[ "a7f3c2d1" :=
              "a7f3c2d1e8b4a9f6c3d7e2b5a8f1c4d6e9b2a5f8c1d4e7b0a3f6c9d2e5b8a1f4" ]}.
  repeat split; try (vm_compute; reflexivity). discriminate.
Qed.

(** C2, as amended.  The collision-safe write is [hashAndStore]'s: when
    the eight-digit truncation of a digest already maps to another,
    non-empty full hash, the digest is stored under its twelve-digit
    truncation, which is returned, and the entry in the way keeps its
    value.  The compressors do not look before they write: a call of
    [compressPayload] that reaches a compressor leaves the table as it was
    with [set] applied for each hashed identifier of the event, under the
    truncation of at most eight characters that the wire object carries,
    so an entry in the way is replaced. *)
Theorem lookup_writes_and_collisions `{Runtime}
    (data existing : string) (table : gmap string string)
    (fullPayload long short wire : value) (k : string) (m : gmap string string)
    (hashLookup' : option (gmap string string)) :
  let full := Sha256.digest data in
  table !! take_chars 8 full = Some existing ->
  existing <> "" ->
  existing <> full ->
  get_prop fullPayload "eventType" = Ok long ->
  get_prop fullPayload "e" = Ok short ->
  In k dispatched ->
  js_or long short = VStr k ->
  compressPayload fullPayload (Some m) = Ok (wire, hashLookup') ->
  (hashAndStore data (Some table) 8
     = Ok (Hashed full (take_chars 12 full),
           Some (<[take_chars 12 full := full]> table))
   /\ (<[take_chars 12 full := full]> table) !! take_chars 8 full = Some existing)
  /\ hashLookup' = Some (write_all (compressor_writes fullPayload wire) m)
  /\ Forall (fun kv => (String.length kv.1 <= 8)%nat)
            (compressor_writes fullPayload wire).
Proof.
  intros full Htable Hne Hdiff Hlong Hshort Hk Htype Hcompress. split.
  - apply hashAndStore_collision; assumption.
  - eapply compressPayload_writes; eassumption.
Qed.

Lemma lookup_writes_and_collisions_witness :
  let first := "257a4e6ce5c9045d4b949970d47a4022631294b551a5bf4d6b5da26be8bf70f8" in
  let full := "257a4e6c98c261b4342ef3ce208f6e65eb9cc6bfccdda278c8f9e56fb5836803" in
  let table : gmap string string := {[ "257a4e6c" := first ]} in
  let patient := "a7f3c2d1e8b4a9f6c3d7e2b5a8f1c4d6e9b2a5f8c1d4e7b0a3f6c9d2e5b8a1f4" in
  let other := "a7f3c2d100000000000000000000000000000000000000000000000000000000" in
  let wire :=
    VObj [ ("e", VStr "i"); ("t", VStr "0.0.12345"); ("ts", VNum 1761652800);
           ("u", VNum 1766836800); ("g", VStr "MA-CAS"); ("h", VStr "a7f3c2d1");
           ("md", VNum 1); ("dc", VNum 0); ("n", VStr "n"); ("s", VStr "s") ] in
  (hashAndStore "patient-123328" (Some table) 8
     = Ok (Hashed full "257a4e6c98c2", Some (<["257a4e6c98c2" := full]> table))
   /\ (<["257a4e6c98c2" := full]> table) !! "257a4e6c" = Some first)
  /\ Some ({[ "a7f3c2d1" := patient ]} : gmap string string)
     = Some (write_all (compressor_writes issued_event wire) {[ "a7f3c2d1" := other ]})
  /\ Forall (fun kv => (String.length kv.1 <= 8)%nat)
            (compressor_writes issued_event wire).
Proof.
  cbv zeta.
  apply (lookup_writes_and_collisions "patient-123328"
           "257a4e6ce5c9045d4b949970d47a4022631294b551a5bf4d6b5da26be8bf70f8"
           {[ "257a4e6c" :=
                "257a4e6ce5c9045d4b949970d47a4022631294b551a5bf4d6b5da26be8bf70f8" ]}
           issued_event (VStr "issued") VUndef _ "issued").
  - vm_compute. reflexivity.
  - discriminate.
  - vm_compute. discriminate.
  - reflexivity.
  - reflexivity.
  - cbn. tauto.
  - reflexivity.
  - vm_compute. reflexivity.
Defined.

(** ** Geotags *)

Section GeotagProperties.
Context `{Runtime}.

Lemma haversineDistance_returns (lat lng : value) (c : city) :
  returns (ToNumber lat) -> returns (ToNumber lng) ->
  returns (haversineDistance lat lng (center c).1 (center c).2).
Proof.
  intros [x Hx] [y Hy]. unfold haversineDistance, center.
  rewrite Hx, Hy. cbn. eexists. reflexivity.
Qed.

Lemma nearest_returns (lat lng : value) (cities : list city)
    (nearestCity : option city) (minDistance : float) :
  returns (ToNumber lat) -> returns (ToNumber lng) ->
  exists c, nearest lat lng cities nearestCity minDistance = Ok c
            /\ (In c (map code cities) \/ c = FALLBACK_CODE
                \/ exists b, nearestCity = Some b /\ c = code b).
Proof.
  intros Hlat Hlng. revert nearestCity minDistance.
  induction cities as [|city cities IH]; intros nearestCity minDistance.
  - cbn [nearest]. destruct nearestCity as [b|].
    + destruct (PrimFloat.leb minDistance 100); eexists; split;
        try reflexivity; eauto.
    + eexists; split; [reflexivity|]. auto.
  - cbn [nearest].
    destruct (haversineDistance_returns lat lng city Hlat Hlng) as [d ->].
    cbn [mbind result_bind].
    destruct (PrimFloat.leb d (radius city)).
    + eexists; split; [reflexivity|]. left. cbn. auto.
    + destruct (PrimFloat.ltb d minDistance).
      * destruct (IH (Some city) d) as (c & -> & Hc).
        eexists; split; [reflexivity|].
        destruct Hc as [Hc|[Hc|(b & [= <-] & ->)]]; cbn; auto.
      * destruct (IH nearestCity minDistance) as (c & -> & Hc).
        eexists; split; [reflexivity|].
        destruct Hc as [Hc|[Hc|Hc]]; cbn; auto.
Qed.

Lemma coordsToCity_returns (lat lng : value) :
  returns (ToNumber lat) -> returns (ToNumber lng) ->
  exists c, coordsToCity lat lng = Ok c /\ catalogue_code c.
Proof.
  intros Hlat Hlng. unfold coordsToCity, catalogue_code.
  destruct (negb (truthy lat) || negb (truthy lng)).
  - eexists; split; [reflexivity|]. auto.
  - destruct (nearest_returns lat lng MOROCCAN_CITIES None infinity Hlat Hlng)
      as (c & -> & Hc).
    eexists; split; [reflexivity|].
    destruct Hc as [Hc|[Hc|(b & [=] & _)]]; auto.
Qed.

Lemma parsed_part_converts (parts : list string) (i : nat) :
  returns (ToNumber (nth i (map (fun p => VNum (parseFloat p)) parts) VUndef)).
Proof.
  revert i. induction parts as [|p parts IH]; intros [|i]; cbn;
    try (eexists; reflexivity). apply IH.
Qed.

(** C7, as amended.  [compressGeotag] returns a string for every input
    but an object whose truthy [lat] or [lng] cannot be converted to a
    number.  A string that starts with MA- is returned as it is, in the
    catalogue or not; a string with a comma and an object with truthy
    [lat] and [lng] give a catalogue code or MA-UNK; every other input
    gives MA-UNK.  A catalogue code [known] passes through. *)
Theorem compressGeotag_total (geotag : value) (known : string) :
  (forall fs, geotag = VObj fs ->
     truthy (obj_get fs "lat") = true -> truthy (obj_get fs "lng") = true ->
     returns (ToNumber (obj_get fs "lat")) /\ returns (ToNumber (obj_get fs "lng"))) ->
  catalogue_code known ->
  (exists c, compressGeotag geotag = Ok (VStr c)
     /\ match geotag with
        | VStr s =>
            if startsWith "MA-" s then c = s
            else if includes_char "," s then catalogue_code c
            else c = FALLBACK_CODE
        | VObj fs =>
            if truthy (obj_get fs "lat") && truthy (obj_get fs "lng")
            then catalogue_code c else c = FALLBACK_CODE
        | _ => c = FALLBACK_CODE
        end)
  /\ compressGeotag (VStr known) = Ok (VStr known).
Proof.
  intros Hconv Hknown. split.
  - unfold compressGeotag.
    destruct geotag as [| |b|x|s|xs|fs|n]; cbn [truthy negb typeof String.eqb
      Ascii.eqb Bool.eqb call_startsWith get_prop mbind result_bind andb].
    + eexists; split; reflexivity.
    + eexists; split; reflexivity.
    + destruct b; eexists; split; reflexivity.
    + destruct (negb (PrimFloat.eqb x 0 || is_nan x)); eexists; split; reflexivity.
    + destruct s as [|a s]; [eexists; split; reflexivity|].
      cbn [String.eqb negb mbind result_bind].
      destruct (startsWith "MA-" (String a s)); [eexists; split; reflexivity|].
      destruct (includes_char "," (String a s)); [|eexists; split; reflexivity].
      edestruct coordsToCity_returns as (c & -> & Hc);
        [apply parsed_part_converts..|].
      eexists; split; [reflexivity|exact Hc].
    + eexists; split; reflexivity.
    + destruct (truthy (obj_get fs "lat")) eqn:Hlat;
        [destruct (truthy (obj_get fs "lng")) eqn:Hlng|];
        cbn [andb]; try (eexists; split; reflexivity).
      destruct (Hconv fs eq_refl Hlat Hlng) as [Hx Hy].
      destruct (coordsToCity_returns _ _ Hx Hy) as (c & -> & Hc).
      eexists; split; [reflexivity|exact Hc].
    + eexists; split; reflexivity.
  - destruct Hknown as [Hc| ->]; [|reflexivity].
    cbn in Hc. repeat (destruct Hc as [<-|Hc]; [reflexivity|]). destruct Hc.
Qed.

End GeotagProperties.

(** C7 as stated fails twice over: a string that starts with MA- and is no
    catalogue code is returned as it is, not as MA-UNK; and an object whose
    latitude cannot be converted to a number makes [compressGeotag] throw. *)
Lemma compressGeotag_passes_unknown_code_and_throws :
  compressGeotag (VStr "MA-XYZ") = Ok (VStr "MA-XYZ")
  /\ ~ catalogue_code "MA-XYZ"
  /\ compressGeotag (VObj [ ("lat", VObj [("toString", VNum 1)]); ("lng", VNum 1) ])
     = Throw TypeError.
Proof.
  split; [reflexivity|]. split; [|reflexivity].
  unfold catalogue_code. cbn. intros [Hc|Hc]; [|discriminate Hc].
  repeat (destruct Hc as [Hc|Hc]; [discriminate Hc|]). destruct Hc.
Qed.

Lemma compressGeotag_total_witness :
  (exists c, compressGeotag (VObj [("lat", VNum 31.7); ("lng", VNum (-8))])
             = Ok (VStr c) /\ catalogue_code c)
  /\ compressGeotag (VStr "MA-FES") = Ok (VStr "MA-FES").
Proof.
  apply (compressGeotag_total (VObj [("lat", VNum 31.7); ("lng", VNum (-8))]) "MA-FES").
  - intros fs [= <-] _ _. split; eexists; reflexivity.
  - left. cbn. tauto.
Defined.

(** the reference runtime on the coordinates of the catalogue: the centre
    of Casablanca, a point within 25 km of Rabat and of Sale (the first in
    the catalogue wins), and Paris *)
Example compressGeotag_on_coordinates :
  compressGeotag (VStr "33.5731,-7.5898") = Ok (VStr "MA-CAS")
  /\ compressGeotag (VObj [("lat", VNum 34.05); ("lng", VNum (-6.8))])
     = Ok (VStr "MA-RAB")
  /\ compressGeotag (VStr "48.85,2.35") = Ok (VStr "MA-UNK").
Proof. vm_compute. repeat split; reflexivity. Qed.

(** ** Dispense locks *)

Section LockProperties.
Variable clock : nat -> Z.

Lemma takeLock_holder (topicId pharmacistId : string) (s : R.state) :
  exists s',
    R.takeLock clock topicId pharmacistId s = (true, s')
    /\ R.activeDispenseOperations s' !! topicId
       = Some (R.Lock pharmacistId (clock (R.reads s))).
Proof.
  unfold R.takeLock, R.Date_now, R.set_locks. cbn.
  eexists; split; [reflexivity|]. cbn. apply lookup_insert_eq.
Qed.

Lemma acquire_success_holder (topicId pharmacistId : string) (s0 s1 : R.state) :
  R.acquireDispenseLock clock topicId pharmacistId s0 = (true, s1) ->
  exists acquired,
    R.activeDispenseOperations s1 !! topicId = Some (R.Lock pharmacistId acquired).
Proof.
  unfold R.acquireDispenseLock.
  destruct (R.activeDispenseOperations s0 !! topicId) as [existing|].
  - lazy beta iota zeta delta [R.Date_now].
    destruct (R.DISPENSE_LOCK_TIMEOUT <? _); [|discriminate].
    intros Hacq.
    match type of Hacq with
    | R.takeLock _ _ _ ?s = _ =>
        destruct (takeLock_holder topicId pharmacistId s) as (s' & Ht & Hl)
    end.
    rewrite Ht in Hacq. injection Hacq as <-. eauto.
  - intros Hacq.
    destruct (takeLock_holder topicId pharmacistId s0) as (s' & Ht & Hl).
    rewrite Ht in Hacq. injection Hacq as <-. eauto.
Qed.

(** C9.  After a successful [acquireDispenseLock], in any state where the
    topic's lock is still the one acquired, a second call is refused and
    leaves the locks as they are if less than 30 seconds have elapsed
    since the acquisition, and succeeds, making the caller the holder, if
    more than 30 seconds have elapsed. *)
Theorem dispense_lock_exclusion_and_reclaim
    (topicId first second : string) (s0 s1 s : R.state) :
  R.acquireDispenseLock clock topicId first s0 = (true, s1) ->
  R.activeDispenseOperations s !! topicId
    = R.activeDispenseOperations s1 !! topicId ->
  exists acquired,
    R.activeDispenseOperations s1 !! topicId = Some (R.Lock first acquired)
    /\ (clock (R.reads s) - acquired < 30000 ->
        exists s',
          R.acquireDispenseLock clock topicId second s = (false, s')
          /\ R.activeDispenseOperations s' = R.activeDispenseOperations s)
    /\ (30000 < clock (R.reads s) - acquired ->
        exists s',
          R.acquireDispenseLock clock topicId second s = (true, s')
          /\ R.activeDispenseOperations s' !! topicId
             = Some (R.Lock second (clock (S (R.reads s))))).
Proof.
  intros Hacq Hsame.
  destruct (acquire_success_holder _ _ _ _ Hacq) as [acquired Hheld].
  exists acquired. split; [exact Hheld|].
  rewrite Hheld in Hsame.
  unfold R.acquireDispenseLock. rewrite Hsame.
  lazy beta iota zeta delta [R.Date_now R.acquiredAt].
  unfold R.DISPENSE_LOCK_TIMEOUT. split; intros Helapsed.
  - replace (30000 <? clock (R.reads s) - acquired) with false by lia.
    eexists; split; reflexivity.
  - replace (30000 <? clock (R.reads s) - acquired) with true by lia.
    match goal with
    | |- exists s', R.takeLock _ _ _ ?s0 = _ /\ _ =>
        destruct (takeLock_holder topicId second s0) as (s' & Ht & Hl)
    end.
    exists s'. split; [exact Ht|exact Hl].
Qed.

End LockProperties.

Lemma dispense_lock_exclusion_and_reclaim_witness :
  let s1 := (R.acquireDispenseLock every_20s "0.0.7" "ph-1" R.init).2 in
  let s := (R.isDispenseLocked every_20s "0.0.7" s1).2 in
  exists acquired,
    R.activeDispenseOperations s1 !! "0.0.7" = Some (R.Lock "ph-1" acquired)
    /\ (every_20s (R.reads s) - acquired < 30000 ->
        exists s',
          R.acquireDispenseLock every_20s "0.0.7" "ph-2" s = (false, s')
          /\ R.activeDispenseOperations s' = R.activeDispenseOperations s)
    /\ (30000 < every_20s (R.reads s) - acquired ->
        exists s',
          R.acquireDispenseLock every_20s "0.0.7" "ph-2" s = (true, s')
          /\ R.activeDispenseOperations s' !! "0.0.7"
             = Some (R.Lock "ph-2" (every_20s (S (R.reads s))))).
Proof.
  cbv zeta.
  apply (dispense_lock_exclusion_and_reclaim every_20s "0.0.7" "ph-1" "ph-2" R.init);
    reflexivity.
Defined.

(** the two cases of C9 run on that clock: a second call 20 seconds after
    the acquisition is refused, one 40 seconds after it takes the lock *)
Example second_acquire_refused_then_granted :
  let '(r1, s1) := R.acquireDispenseLock every_20s "0.0.7" "ph-1" R.init in
  let '(r2, s2) := R.acquireDispenseLock every_20s "0.0.7" "ph-2" s1 in
  let '(r3, s3) := R.acquireDispenseLock every_20s "0.0.7" "ph-3" s2 in
  (r1, r2, r3) = (true, false, true)
  /\ R.activeDispenseOperations s2 !! "0.0.7" = Some (R.Lock "ph-1" 0)
  /\ R.activeDispenseOperations s3 !! "0.0.7" = Some (R.Lock "ph-3" 60000).
Proof. vm_compute. repeat split; reflexivity. Qed.

(** ** Pending confirmations *)

Lemma consistent_init : consistent_state R.init.
Proof.
  split; cbn; intros *; rewrite ?lookup_empty;
    try discriminate; try (intros [? [=]]); try (intros []%elem_of_nil).
Qed.

Lemma elem_of_delete_inv {A : Type} (l : list A) (i : nat) (x y : A) :
  l !! i = Some x -> y ∈ l -> y = x \/ y ∈ delete i l.
Proof.
  intros Hi Hy. rewrite <- (take_drop_middle l i x Hi) in Hy.
  rewrite delete_take_drop.
  apply elem_of_app in Hy as [Hy|Hy]; [right; apply elem_of_app; auto|].
  apply elem_of_cons in Hy as [->|Hy]; [auto|].
  right. apply elem_of_app. auto.
Qed.

Lemma elem_of_delete_sub {A : Type} (l : list A) (i : nat) (y : A) :
  y ∈ delete i l -> y ∈ l.
Proof.
  apply list_elem_of_delete_inv.
Qed.

(** more timers do no harm *)
Lemma consistent_timers n h pc tm su extra :
  consistent n h pc tm su -> consistent n h pc (tm ++ extra) su.
Proof.
  intros [U A O SA SO SC]. split; try assumption.
  intros t l p Ht Hl Hr. destruct (SC t l p Ht Hl Hr) as [[d Hd]|Hs]; [|auto].
  left. exists d. apply elem_of_app. auto.
Qed.

(** [submitStatusUpdate]: a fresh unconfirmed record, and its timer *)
Lemma consistent_submit n h pc tm su t p d :
  consistent n h pc tm su -> R.confirmed p = false ->
  consistent (S n) (<[n := p]> h) (<[t := n]> pc) (tm ++ [(d, t)]) su.
Proof.
  intros [U A O SA SO SC] Hp.
  assert (Hfresh : forall t0, pc !! t0 = Some n -> False).
  { intros t0 Ht0. destruct (U _ _ Ht0) as (p0 & Hp0 & _).
    assert (n < n)%nat by (apply A; eauto). lia. }
  split.
  - intros t0 l Ht0. destruct (decide (t = t0)) as [->|Hne].
    + rewrite lookup_insert_eq in Ht0. injection Ht0 as <-.
      exists p. rewrite lookup_insert_eq. auto.
    + rewrite lookup_insert_ne in Ht0 by assumption.
      destruct (U _ _ Ht0) as (p0 & Hp0 & Hc). exists p0. split; [|exact Hc].
      rewrite lookup_insert_ne; [exact Hp0|].
      intros <-. eauto.
  - intros l [p0 Hl]. destruct (decide (n = l)) as [<-|Hne]; [lia|].
    rewrite lookup_insert_ne in Hl by assumption.
    assert (l < n)%nat by (apply A; eauto). lia.
  - intros t1 t2 l H1 H2.
    destruct (decide (t = t1)) as [<-|Hne1], (decide (t = t2)) as [<-|Hne2];
      simplify_map_eq; eauto; exfalso; eauto.
  - intros t0 l Hin. apply lookup_insert_is_Some'. right. eauto.
  - intros t0 l t' Hin Ht'. destruct (decide (t = t')) as [<-|Hne].
    + rewrite lookup_insert_eq in Ht'. injection Ht' as <-.
      assert (n < n)%nat by (apply A; eauto). lia.
    + rewrite lookup_insert_ne in Ht' by assumption. eauto.
  - intros t0 l p0 Ht0 Hl Hr. destruct (decide (t = t0)) as [<-|Hne].
    + left. exists d. apply elem_of_app. right. apply list_elem_of_singleton.
      reflexivity.
    + rewrite lookup_insert_ne in Ht0 by assumption.
      rewrite lookup_insert_ne in Hl by (intros <-; eauto).
      destruct (SC _ _ _ Ht0 Hl Hr) as [[d0 Hd0]|Hs]; [|auto].
      left. exists d0. apply elem_of_app. auto.
Qed.

(** a timer fires for a topic without a record *)
Lemma consistent_timer_idle n h pc tm su i d t :
  consistent n h pc tm su -> tm !! i = Some (d, t) -> pc !! t = None ->
  consistent n h pc (delete i tm) su.
Proof.
  intros [U A O SA SO SC] Hi Hnone. split; try assumption.
  intros t0 l p Ht0 Hl Hr. destruct (SC _ _ _ Ht0 Hl Hr) as [[d0 Hd0]|Hs]; [|auto].
  destruct (elem_of_delete_inv _ _ _ _ Hi Hd0) as [[= -> ->]|Hin]; [congruence|].
  left. eauto.
Qed.

(** a timer fires for a topic with a record: the call is suspended on it *)
Lemma consistent_timer_suspends n h pc tm su i d t l :
  consistent n h pc tm su -> tm !! i = Some (d, t) -> pc !! t = Some l ->
  consistent n h pc (delete i tm) (su ++ [(t, l)]).
Proof.
  intros [U A O SA SO SC] Hi Hl. split; try assumption.
  - intros t0 l0 [Hin|Hin%list_elem_of_singleton]%elem_of_app; [eauto|].
    injection Hin as -> ->. destruct (U _ _ Hl) as (p & Hp & _). eauto.
  - intros t0 l0 t' [Hin|Hin%list_elem_of_singleton]%elem_of_app Ht'; [eauto|].
    injection Hin as -> ->. eauto.
  - intros t0 l0 p Ht0 Hl0 Hr.
    destruct (SC _ _ _ Ht0 Hl0 Hr) as [[d0 Hd0]|Hs].
    + destruct (elem_of_delete_inv _ _ _ _ Hi Hd0) as [[= -> ->]|Hin].
      * right. apply elem_of_app. right. apply list_elem_of_singleton.
        congruence.
      * left. eauto.
    + right. apply elem_of_app. auto.
Qed.

(** the query settles with the submitted or another known status: the
    record is marked and leaves the map *)
Lemma consistent_confirmed n h pc tm su i t l p' :
  consistent n h pc tm su -> su !! i = Some (t, l) ->
  consistent n (<[l := p']> h) (delete t pc) tm (delete i su).
Proof.
  intros [U A O SA SO SC] Hi.
  assert (Hin : (t, l) ∈ su) by (eapply list_elem_of_lookup_2; eassumption).
  assert (Hother : forall t0 l0, delete t pc !! t0 = Some l0 ->
            t0 <> t /\ pc !! t0 = Some l0 /\ l0 <> l).
  { intros t0 l0 Ht0. apply lookup_delete_Some in Ht0 as [Hne Ht0].
    repeat split; [congruence|exact Ht0|]. intros ->. apply Hne. symmetry. eauto. }
  split.
  - intros t0 l0 Ht0. destruct (Hother _ _ Ht0) as (Hne & Hpc & Hl).
    rewrite lookup_insert_ne by congruence. eauto.
  - intros l0 Hl0. apply lookup_insert_is_Some' in Hl0 as [<-|Hl0]; eauto.
  - intros t1 t2 l0 H1 H2. destruct (Hother _ _ H1) as (_ & H1' & _).
    destruct (Hother _ _ H2) as (_ & H2' & _). eauto.
  - intros t0 l0 Hin0. apply lookup_insert_is_Some'. right.
    eauto using elem_of_delete_sub.
  - intros t0 l0 t' Hin0 Ht'. destruct (Hother _ _ Ht') as (_ & Ht'' & _).
    eauto using elem_of_delete_sub.
  - intros t0 l0 p Ht0 Hl0 Hr. destruct (Hother _ _ Ht0) as (Hne & Hpc & Hl).
    rewrite lookup_insert_ne in Hl0 by congruence.
    destruct (SC _ _ _ Hpc Hl0 Hr) as [Hd|Hs]; [auto|].
    destruct (elem_of_delete_inv _ _ _ _ Hi Hs) as [[= -> ->]|Hin']; [congruence|].
    auto.
Qed.

(** the query settles with "unknown" or fails: one more retry on the
    record, and a timer if the ceiling is not reached *)
Lemma consistent_retry n h pc tm su i t l p p' extra :
  consistent n h pc tm su -> su !! i = Some (t, l) -> h !! l = Some p ->
  (R.confirmed p' = R.confirmed p \/ R.confirmed p' = false) ->
  R.retries p' = S (R.retries p) ->
  ((S (R.retries p) < R.MAX_RETRIES)%nat -> pc !! t = Some l ->
   exists d, (d, t) ∈ extra) ->
  consistent n (<[l := p']> h) pc (tm ++ extra) (delete i su).
Proof.
  intros [U A O SA SO SC] Hi Hp Hconf Hretries Hextra.
  assert (Hin : (t, l) ∈ su) by (eapply list_elem_of_lookup_2; eassumption).
  split.
  - intros t0 l0 Ht0. destruct (decide (l = l0)) as [<-|Hne].
    + exists p'. rewrite lookup_insert_eq. split; [reflexivity|].
      destruct (U _ _ Ht0) as (p0 & Hp0 & Hc). destruct Hconf; congruence.
    + rewrite lookup_insert_ne by assumption. eauto.
  - intros l0 Hl0. apply lookup_insert_is_Some' in Hl0 as [<-|Hl0]; eauto.
  - assumption.
  - intros t0 l0 Hin0. apply lookup_insert_is_Some'. right.
    eauto using elem_of_delete_sub.
  - intros t0 l0 t' Hin0 Ht'. eauto using elem_of_delete_sub.
  - intros t0 l0 p0 Ht0 Hl0 Hr. destruct (decide (l = l0)) as [<-|Hne].
    + rewrite lookup_insert_eq in Hl0. injection Hl0 as <-.
      assert (t0 = t) as -> by eauto.
      left. destruct Hextra as [d Hd]; [lia|assumption|].
      exists d. apply elem_of_app. auto.
    + rewrite lookup_insert_ne in Hl0 by assumption.
      destruct (SC _ _ _ Ht0 Hl0 Hr) as [[d Hd]|Hs].
      * left. exists d. apply elem_of_app. auto.
      * destruct (elem_of_delete_inv _ _ _ _ Hi Hs) as [[= -> ->]|Hin'];
          [congruence|auto].
Qed.

Ltac projections :=
  cbn [R.reads R.inMemoryStore R.next R.heap R.pendingConfirmations
       R.activeDispenseOperations R.timers R.suspended
       R.set_store R.set_heap R.set_pending R.set_locks R.set_timers
       R.set_suspended R.alloc R.Date_now fst snd] in *.

Lemma scheduleRetry_effect (t : string) (s : R.state) :
  exists extra,
    R.scheduleRetry t s = R.set_timers (fun q => q ++ extra)%list s
    /\ (forall l p, R.pendingConfirmations s !! t = Some l ->
          R.heap s !! l = Some p -> R.confirmed p = false ->
          exists d, (d, t) ∈ extra).
Proof.
  assert (Hnone : s = R.set_timers (fun q => q ++ [])%list s).
  { destruct s. unfold R.set_timers. projections. rewrite app_nil_r. reflexivity. }
  unfold R.scheduleRetry.
  destruct (R.pendingConfirmations s !! t) as [l|] eqn:Hl;
    [destruct (R.heap s !! l) as [p|] eqn:Hp;
     [destruct (R.confirmed p) eqn:Hc|]|].
  - exists []. split; [exact Hnone|]. intros l0 p0 [= <-] Hp0 Hc0.
    rewrite Hp in Hp0. congruence.
  - eexists [_]. split; [reflexivity|]. intros ? ? _ _ _.
    eexists. apply list_elem_of_singleton. reflexivity.
  - exists []. split; [exact Hnone|]. intros l0 p0 [= <-] Hp0. congruence.
  - exists []. split; [exact Hnone|]. intros ? ? [=].
Qed.

Section PendingProperties.
Variable clock : nat -> Z.

Lemma setTopicStatus_frame (t st : string) (s : R.state) :
  R.next (R.setTopicStatus clock t st s) = R.next s
  /\ R.heap (R.setTopicStatus clock t st s) = R.heap s
  /\ R.pendingConfirmations (R.setTopicStatus clock t st s) = R.pendingConfirmations s
  /\ R.timers (R.setTopicStatus clock t st s) = R.timers s
  /\ R.suspended (R.setTopicStatus clock t st s) = R.suspended s.
Proof.
  unfold R.setTopicStatus. destruct (R.inMemoryStore s !! t); repeat split.
Qed.

Lemma consistent_submitStatusUpdate (t st : string) (md : value) (s : R.state) :
  consistent_state s -> consistent_state (R.submitStatusUpdate clock t st md s).
Proof.
  intros Hs. unfold R.submitStatusUpdate.
  destruct (setTopicStatus_frame t st s) as (Hn & Hh & Hp & Ht & Hsu).
  set (s1 := R.setTopicStatus clock t st s) in *.
  lazy beta iota zeta delta [R.Date_now R.alloc].
  match goal with
  | |- consistent_state (R.scheduleRetry t ?s2) =>
      destruct (scheduleRetry_effect t s2) as (extra & -> & Hextra);
      specialize (Hextra (R.next s1) (R.Pending st (clock (R.reads s1)) 0 false md))
  end.
  unfold consistent_state in *. projections.
  rewrite !lookup_insert_eq in Hextra.
  destruct (Hextra eq_refl eq_refl eq_refl) as [d Hd].
  rewrite Hn, Hh, Hp, Ht, Hsu.
  pose proof (consistent_submit _ _ _ _ _ t
                (R.Pending st (clock (R.reads s1)) 0 false md) d Hs eq_refl) as Hc.
  destruct Hc as [U A O SA SO SC]. split; try assumption.
  intros t0 l p Ht0 Hl Hr. destruct (SC _ _ _ Ht0 Hl Hr) as [[d0 Hd0]|Hin]; [|auto].
  left. apply elem_of_app in Hd0 as [Hd0|Hd0%list_elem_of_singleton].
  - exists d0. apply elem_of_app. auto.
  - injection Hd0 as -> ->. exists d. apply elem_of_app. auto.
Qed.

Lemma consistent_retryConfirmation_begin (i : nat) (d : Z) (t : string) (s : R.state) :
  consistent_state s -> R.timers s !! i = Some (d, t) ->
  consistent_state (R.retryConfirmation_begin t (R.set_timers (delete i) s)).
Proof.
  intros Hs Hi. unfold R.retryConfirmation_begin, consistent_state in *.
  projections.
  destruct (R.pendingConfirmations s !! t) as [l|] eqn:Hl.
  - destruct (unconfirmed _ _ _ _ _ Hs _ _ Hl) as (p & -> & ->). projections.
    eapply consistent_timer_suspends; eassumption.
  - projections. eapply consistent_timer_idle; eassumption.
Qed.

Lemma consistent_retryConfirmation_resume (i : nat) (t : string) (l : nat)
    (o : R.outcome) (s : R.state) :
  consistent_state s -> R.suspended s !! i = Some (t, l) ->
  consistent_state
    (R.retryConfirmation_resume clock t l o (R.set_suspended (delete i) s)).
Proof.
  intros Hs Hi.
  assert (Hin : (t, l) ∈ R.suspended s) by (eapply list_elem_of_lookup_2; eassumption).
  destruct (suspended_allocated _ _ _ _ _ Hs _ _ Hin) as [p Hp].
  assert (Hunconfirmed : R.pendingConfirmations s !! t = Some l ->
                         R.confirmed p = false).
  { intros Hl. destruct (unconfirmed _ _ _ _ _ Hs _ _ Hl) as (p0 & Hp0 & Hc).
    congruence. }
  assert (Hretry : forall c s',
    R.next s' = R.next s -> R.pendingConfirmations s' = R.pendingConfirmations s ->
    R.timers s' = R.timers s -> R.suspended s' = delete i (R.suspended s) ->
    R.heap s' = <[l := R.Pending (R.status p) (R.timestamp p) (S (R.retries p)) c
                         (R.metadata p)]> (R.heap s) ->
    (c = R.confirmed p \/ c = false) ->
    (S (R.retries p) <? R.MAX_RETRIES)%nat = false ->
    consistent_state s').
  { intros c s' Hn Hpc Htm Hsu Hh Hc Hceil. unfold consistent_state.
    rewrite Hn, Hpc, Htm, Hsu, Hh, <- (app_nil_r (R.timers s)).
    eapply consistent_retry; try eassumption; try reflexivity.
    intros Hlt. apply Nat.ltb_ge in Hceil. lia. }
  assert (Hschedule : forall s',
    R.next s' = R.next s -> R.pendingConfirmations s' = R.pendingConfirmations s ->
    R.timers s' = R.timers s -> R.suspended s' = delete i (R.suspended s) ->
    R.heap s' = <[l := R.Pending (R.status p) (R.timestamp p) (S (R.retries p))
                         (R.confirmed p) (R.metadata p)]> (R.heap s) ->
    consistent_state (R.scheduleRetry t s')).
  { intros s' Hn Hpc Htm Hsu Hh.
    destruct (scheduleRetry_effect t s') as (extra & -> & Hextra).
    unfold consistent_state. projections.
    rewrite Hn, Hpc, Htm, Hsu, Hh.
    eapply consistent_retry; try eassumption; try reflexivity; [auto|].
    intros _ Hl. eapply Hextra.
    - rewrite Hpc. exact Hl.
    - rewrite Hh. apply lookup_insert_eq.
    - cbn. auto. }
  unfold R.retryConfirmation_resume. projections. rewrite Hp.
  destruct o as [mirrorStatus|].
  - destruct (String.eqb mirrorStatus (R.status p)).
    { unfold consistent_state. projections.
      eapply consistent_confirmed; eassumption. }
    destruct (negb (String.eqb mirrorStatus "unknown")).
    { unfold consistent_state. projections.
      match goal with
      | |- context [R.setTopicStatus clock t mirrorStatus ?s0] =>
          destruct (setTopicStatus_frame t mirrorStatus s0)
            as (-> & -> & -> & -> & ->)
      end.
      projections. eapply consistent_confirmed; eassumption. }
    destruct (S (R.retries p) <? R.MAX_RETRIES)%nat eqn:Hceil.
    + apply Hschedule; reflexivity.
    + eapply (Hretry false); try reflexivity; [|auto].
      projections. apply insert_insert_eq.
  - destruct (S (R.retries p) <? R.MAX_RETRIES)%nat eqn:Hceil.
    + apply Hschedule; reflexivity.
    + eapply (Hretry (R.confirmed p)); try reflexivity; auto.
Qed.

Lemma consistent_handle (e : R.event) (s : R.state) :
  consistent_state s -> consistent_state (R.handle clock e s).
Proof.
  intros Hs. destruct e as [t st md|i|i o|t ph|t|t|t|t st]; cbn [R.handle].
  - apply consistent_submitStatusUpdate. exact Hs.
  - destruct (R.timers s !! i) as [[d t]|] eqn:Hi; [|exact Hs].
    eapply consistent_retryConfirmation_begin; eassumption.
  - destruct (R.suspended s !! i) as [[t l]|] eqn:Hi; [|exact Hs].
    eapply consistent_retryConfirmation_resume; eassumption.
  - unfold R.acquireDispenseLock, R.takeLock.
    destruct (R.activeDispenseOperations s !! t);
      lazy beta iota zeta delta [R.Date_now];
      try destruct (R.DISPENSE_LOCK_TIMEOUT <? _); exact Hs.
  - exact Hs.
  - unfold R.isDispenseLocked.
    destruct (R.activeDispenseOperations s !! t);
      lazy beta iota zeta delta [R.Date_now];
      try destruct (R.DISPENSE_LOCK_TIMEOUT <? _); exact Hs.
  - unfold R.getConfirmationStatus.
    destruct (_ ≫= _); exact Hs.
  - unfold consistent_state.
    destruct (setTopicStatus_frame t st s) as (-> & -> & -> & -> & ->). exact Hs.
Qed.

(** every history leads to a consistent state *)
Lemma consistent_run (events : list R.event) :
  consistent_state (R.run clock events).
Proof.
  unfold R.run. induction events as [|e events IH] using rev_ind.
  - exact consistent_init.
  - rewrite fold_left_app. cbn [fold_left]. apply consistent_handle. exact IH.
Qed.

End PendingProperties.

(** C10.  After any history of submissions, timers, settled queries, lock
    calls and store writes: a record in [pendingConfirmations] has
    [confirmed === false], and once no timer is set and no call is
    suspended it has reached the retry ceiling; and when a suspended check
    settles with the status of its record, or with another status than
    "unknown", the topic is deleted from the map and
    [getConfirmationStatus] answers confirmed, no status, not pending. *)
Theorem pending_confirmations_hold_unconfirmed
    (clock : nat -> Z) (events : list R.event)
    (topicId : string) (l : nat)
    (i : nat) (t : string) (l' : nat) (mirrorStatus : string) :
  let s := R.run clock events in
  (R.pendingConfirmations s !! topicId = Some l ->
   exists p,
     R.heap s !! l = Some p
     /\ R.confirmed p = false
     /\ (R.timers s = [] -> R.suspended s = [] ->
         (R.MAX_RETRIES <= R.retries p)%nat))
  /\ (R.suspended s !! i = Some (t, l') ->
      exists p,
        R.heap s !! l' = Some p
        /\ (mirrorStatus = R.status p \/ mirrorStatus <> "unknown" ->
            let s' := R.handle clock (R.QuerySettles i (R.Resolved mirrorStatus)) s in
            R.pendingConfirmations s' !! t = None
            /\ (R.getConfirmationStatus clock t s').1
               = VObj [ ("confirmed", VBool true); ("status", VNull);
                        ("isPending", VBool false) ])).
Proof.
  intros s. pose proof (consistent_run clock events) as Hs. fold s in Hs.
  split.
  - intros Hl. destruct (unconfirmed _ _ _ _ _ Hs _ _ Hl) as (p & Hp & Hc).
    exists p. repeat split; try assumption.
    intros Htm Hsu.
    destruct (le_lt_dec R.MAX_RETRIES (R.retries p)) as [Hle|Hlt]; [exact Hle|].
    destruct (scheduled _ _ _ _ _ Hs _ _ _ Hl Hp Hlt) as [[d Hd]|Hin].
    + rewrite Htm in Hd. apply elem_of_nil in Hd. destruct Hd.
    + rewrite Hsu in Hin. apply elem_of_nil in Hin. destruct Hin.
  - intros Hi.
    assert (Hin : (t, l') ∈ R.suspended s)
      by (eapply list_elem_of_lookup_2; eassumption).
    destruct (suspended_allocated _ _ _ _ _ Hs _ _ Hin) as [p Hp].
    exists p. split; [exact Hp|]. intros Hstatus.
    assert (Hdeleted : R.pendingConfirmations
              (R.handle clock (R.QuerySettles i (R.Resolved mirrorStatus)) s) !! t
            = None).
    { cbn [R.handle]. rewrite Hi. unfold R.retryConfirmation_resume.
      projections. rewrite Hp.
      destruct (String.eqb_spec mirrorStatus (R.status p)) as [Heq|Hne].
      - projections. apply lookup_delete_eq.
      - destruct (String.eqb_spec mirrorStatus "unknown") as [Hu|Hu]; [tauto|].
        cbn [negb]. projections. apply lookup_delete_eq. }
    cbv zeta. split; [exact Hdeleted|].
    unfold R.getConfirmationStatus. rewrite Hdeleted. reflexivity.
Qed.

Lemma pending_confirmations_hold_unconfirmed_witness :
  let s := R.run every_20s [R.Submit "0.0.7" "paid" VNull; R.TimerFires 0] in
  (exists p,
     R.heap s !! 0%nat = Some p
     /\ R.confirmed p = false
     /\ (R.timers s = [] -> R.suspended s = [] ->
         (R.MAX_RETRIES <= R.retries p)%nat))
  /\ (exists p,
        R.heap s !! 0%nat = Some p
        /\ ("paid" = R.status p \/ "paid" <> "unknown" ->
            let s' := R.handle every_20s (R.QuerySettles 0 (R.Resolved "paid")) s in
            R.pendingConfirmations s' !! "0.0.7" = None
            /\ (R.getConfirmationStatus every_20s "0.0.7" s').1
               = VObj [ ("confirmed", VBool true); ("status", VNull);
                        ("isPending", VBool false) ])).
Proof.
  destruct (pending_confirmations_hold_unconfirmed every_20s
              [R.Submit "0.0.7" "paid" VNull; R.TimerFires 0]
              "0.0.7" 0 0 "0.0.7" 0 "paid") as [Hrecord Hsettle].
  split; [apply Hrecord; reflexivity|apply Hsettle; reflexivity].
Defined.

(** Histories of one submission.  The ledger answers "unknown" five
    times: the record stays, unconfirmed, with five retries and nothing
    scheduled.  The ledger answers another status: the store takes it and
    the record is gone. *)
Example unconfirmed_record_persists_at_ceiling :
  let unknown := [R.TimerFires 0; R.QuerySettles 0 (R.Resolved "unknown")] in
  let s := R.run every_20s
             (R.Submit "0.0.7" "paid" VNull
              :: unknown ++ unknown ++ unknown ++ unknown ++ unknown)%list in
  R.timers s = [] /\ R.suspended s = []
  /\ (l ← R.pendingConfirmations s !! "0.0.7"; R.heap s !! l)
     = Some (R.Pending "paid" 20000 5 false VNull).
Proof. vm_compute. repeat split; reflexivity. Qed.

Example ledger_status_overrides :
  let s := R.run every_20s
             [R.Submit "0.0.7" "paid" VNull; R.TimerFires 0;
              R.QuerySettles 0 (R.Resolved "dispensed")] in
  R.pendingConfirmations s !! "0.0.7" = None
  /\ R.entryStatus <$> R.inMemoryStore s !! "0.0.7" = Some "dispensed"
  /\ R.heap s !! 0%nat = Some (R.Pending "dispensed" 20000 0 true VNull).
Proof. vm_compute. repeat split; reflexivity. Qed.

(** ** The table in decompression *)

Lemma assoc_set_ne {k k' : string} (v : value) (fs : list (string * value)) :
  k <> k' -> assoc k' (obj_set k v fs) = assoc k' fs.
Proof.
  intros Hne. induction fs as [|[k0 v0] fs IH]; cbn.
  - rewrite eqb_neq_false by congruence. reflexivity.
  - destruct (String.eqb_spec k k0) as [->|Hk0]; cbn.
    + rewrite !eqb_neq_false by congruence. reflexivity.
    + rewrite IH. reflexivity.
Qed.

Lemma assoc_Some {A : Type} (k : string) (v : A) (l : list (string * A)) :
  assoc k l = Some v -> In (k, v) l.
Proof.
  induction l as [|[k0 v0] l IH]; cbn; [discriminate|].
  destruct (String.eqb_spec k k0) as [->|Hne].
  - intros [= ->]. auto.
  - auto.
Qed.

Lemma assoc_None {A : Type} (k : string) (l : list (string * A)) :
  assoc k l = None -> ~ In k (map fst l).
Proof.
  induction l as [|[k0 v0] l IH]; cbn; [tauto|].
  destruct (String.eqb_spec k k0) as [->|Hne]; [discriminate|].
  intros Hn [Heq|Hin]; [congruence|]. exact (IH Hn Hin).
Qed.

Section TableInDecompression.
Context `{Runtime}.

(** no built-in function prints as one of them *)
Hypothesis native_source : forall n k, read_short k -> Function_toString n <> k.

(** The rename loop never leaves a property under a short key it has a
    long name for. *)
Lemma expandEntry_no_short (full full' : list (string * value))
    (entry : string * value) (k : string) :
  read_short k -> assoc k full = None ->
  expandEntry full entry = Ok full' -> assoc k full' = None.
Proof.
  intros Hk Hfull. destruct entry as [shortKey v]. unfold expandEntry.
  assert (Hne : forall k', ~ read_short k' -> forall x,
            assoc k (obj_set k' x full) = None).
  { intros k' Hk' x. rewrite assoc_set_ne; [exact Hfull|]. intros ->. auto. }
  assert (Hlong : forall k', In k' ["eventType"; "timestamp"; "validUntil"] ->
            ~ read_short k').
  { unfold read_short. cbn. intros k' Hk' Hin.
    destruct Hk' as [<-|[<-|[<-|[]]]];
      destruct Hin as [Hin|[Hin|[Hin|[Hin|[]]]]]; discriminate Hin. }
  destruct (String.eqb shortKey "e");
    [|destruct (String.eqb shortKey "ts"); [|destruct (String.eqb shortKey "u")]];
    intros He; bind_inv He; injection He as <-;
    try (apply Hne, Hlong; cbn; tauto).
  rewrite assoc_set_ne; [exact Hfull|]. intros ->.
  match goal with
  | E : ToString (js_or (obj_get REVERSE_FIELD_MAP shortKey) _) = Ok _ |- _ =>
      rename E into Hkey
  end.
  unfold obj_get in Hkey.
  destruct (assoc shortKey REVERSE_FIELD_MAP) as [long|] eqn:Hrev.
  - apply assoc_Some in Hrev. cbn in Hrev.
    decompose [or] Hrev; try contradiction;
      match goal with
      | E : (_, _) = (_, _) |- _ => injection E as <- <-
      end;
      cbn in Hkey; injection Hkey as <-;
      unfold read_short in Hk; cbn in Hk; decompose [or] Hk;
      first [discriminate|contradiction].
  - apply assoc_None in Hrev. unfold Object_prototype in Hkey.
    destruct (String.eqb shortKey "__proto__").
    + cbn in Hkey. injection Hkey as <-.
      unfold read_short in Hk; cbn in Hk; decompose [or] Hk;
        first [discriminate|contradiction].
    + destruct (existsb (String.eqb shortKey) Object_prototype_functions).
      * cbn in Hkey. injection Hkey as Hkey. exact (native_source _ _ Hk Hkey).
      * cbn in Hkey. injection Hkey as <-. apply Hrev. cbn.
        unfold read_short in Hk. cbn in Hk. tauto.
Qed.

Lemma foldM_expandEntry_no_short (entries : list (string * value))
    (full full' : list (string * value)) (k : string) :
  read_short k -> assoc k full = None ->
  foldM expandEntry entries full = Ok full' -> assoc k full' = None.
Proof.
  intros Hk. revert full. induction entries as [|entry entries IH];
    intros full Hfull; cbn [foldM].
  - intros [= <-]. exact Hfull.
  - intros Hf. bind_inv Hf. eapply IH; [|exact Hf].
    eapply expandEntry_no_short; eassumption.
Qed.

(** Whatever the table holds, [decompressPayload] answers as it does
    without one: the short keys it would look up are no longer on the
    full object when it reads them. *)
Lemma decompressPayload_ignores_table (compressedPayload : value)
    (table : gmap string string) :
  decompressPayload compressedPayload (Some table)
  = decompressPayload compressedPayload None.
Proof.
  unfold decompressPayload.
  destruct (get_prop compressedPayload "eventType") as [eventType|]; [|reflexivity].
  cbn [mbind result_bind]. destruct (truthy eventType); [reflexivity|].
  destruct (Object_entries compressedPayload) as [entries|]; [|reflexivity].
  cbn [mbind result_bind].
  destruct (foldM expandEntry entries []) as [full|] eqn:Hfold; [|reflexivity].
  cbn [mbind result_bind].
  assert (Hshort : forall k, read_short k -> obj_get full k = VUndef).
  { intros k Hk. unfold obj_get.
    rewrite (foldM_expandEntry_no_short entries [] full k Hk eq_refl Hfold).
    unfold read_short in Hk. cbn in Hk. decompose [or] Hk; subst;
      try reflexivity; contradiction. }
  cbv zeta. rewrite (Hshort "m") by (unfold read_short; cbn; tauto).
  cbn [truthy mbind result_bind].
  unfold expandHashField.
  rewrite (Hshort "h") by (unfold read_short; cbn; tauto).
  cbn [truthy andb mbind result_bind].
  rewrite (Hshort "a") by (unfold read_short; cbn; tauto).
  cbn [truthy andb mbind result_bind].
  rewrite (Hshort "p") by (unfold read_short; cbn; tauto).
  reflexivity.
Qed.

End TableInDecompression.

(** the reference runtime prints a built-in function as an engine does *)
Lemma reference_native_source (n k : string) :
  read_short k -> Function_toString n <> k.
Proof.
  unfold read_short. cbn. intros Hk Heq.
  decompose [or] Hk; subst; first [discriminate|contradiction].
Qed.

(** On the ISSUED event of the test suite: with the table that compression
    filled or with none, decompression gives the same truncated hash. *)
Example roundtrip_with_and_without_table :
  let wire :=
    VObj [ ("e", VStr "i"); ("t", VStr "0.0.12345"); ("h", VStr "a7f3c2d1") ] in
  let table : gmap string string :=
    {[ "a7f3c2d1" :=
         "a7f3c2d1e8b4a9f6c3d7e2b5a8f1c4d6e9b2a5f8c1d4e7b0a3f6c9d2e5b8a1f4" ]} in
  decompressPayload wire (Some table) = decompressPayload wire None
  /\ decompressPayload wire None
     = Ok (VObj [ ("eventType", VStr "issued"); ("topicID", VStr "0.0.12345");
                  ("hashedPatientId", VStr "sha256:a7f3c2d1") ]).
Proof.
  cbv zeta. split.
  - apply decompressPayload_ignores_table, reference_native_source.
  - reflexivity.
Qed.
